(** * Medimesh backend: a shallow embedding of the federation and streaming core

    The development follows the TypeScript sources of the backend:

    - [netx.ts]    : the bubble hook of a [Net] and the batch string encoder
                     of a [BufferWriter];
    - [server.ts]  : the HTTP file route, [pipeFile], [resolveRange] and the
                     sub-node filter, in its two revisions (the early one and
                     the plugin-era one);
    - [host.ts]    : [HostTree.resolveFile];
    - [config.ts]  : [setupConfig] and [findConfig].

    JavaScript values are modelled as follows.  A string is a Rocq [string]
    whose characters are char codes below 256 (what an HTTP header or a path
    holds), except in the wire codec where a string is its list of UTF-16
    code units.  A number is an integer, an infinity or NaN.  A call that can throw
    returns a [completion].  Objects that are shared and mutated live in an
    explicit heap. *)

From Stdlib Require Import ZArith Lia List Bool Ascii String.
From stdpp Require Import base option list strings gmap pretty.

Import ListNotations.
Local Open Scope Z_scope.
Set Warnings "-register-all".

(** ** JavaScript basics *)

Module Js.

Inductive error := TypeError | RangeError | URIError | Error (message : string).

(** The outcome of a call: it returns a value or throws. *)
Inductive completion (A : Type) : Type :=
| Returned (a : A)
| Threw (e : error).
Arguments Returned {A} a.
Arguments Threw {A} e.

Definition bind {A B} (c : completion A) (k : A -> completion B) : completion B :=
  match c with
  | Returned a => k a
  | Threw e => Threw e
  end.

(** A reference that may be [undefined] or [null]. *)
Inductive nullable (A : Type) : Type :=
| Undefined
| Null
| Ref (a : A).
Arguments Undefined {A}.
Arguments Null {A}.
Arguments Ref {A} a.

(** A number: NaN, an infinity, or an integer.  Integers are added and
    subtracted exactly, which is what JavaScript does as long as the
    results stay below 2^53 (sizes and offsets do); what [parseInt] reads
    is rounded to a double by [roundToDouble]. *)
Inductive num := NaN | Num (z : Z) | Infinity (negative : bool).

Definition num_add (a b : num) : num :=
  match a, b with
  | Num x, Num y => Num (x + y)
  | Infinity s, Num _ => Infinity s
  | Num _, Infinity s => Infinity s
  | Infinity s, Infinity t => if Bool.eqb s t then Infinity s else NaN
  | _, _ => NaN
  end.

Definition num_sub (a b : num) : num :=
  match a, b with
  | Num x, Num y => Num (x - y)
  | Infinity s, Num _ => Infinity s
  | Num _, Infinity s => Infinity (negb s)
  | Infinity s, Infinity t => if Bool.eqb s t then NaN else Infinity s
  | _, _ => NaN
  end.

(** The Number value of an integer: the nearest double, a tie going to the
    even significand.  An integer of at most 53 bits is its own double;
    of a longer one the 53 leading bits are kept and rounded on the bits
    dropped.  From 2^1024 on the rounded value is no double and the result
    is infinite. *)
Definition roundToDouble (z : Z) : num :=
  let m := Z.abs z in
  let excess := Z.log2 m + 1 - 53 in
  if excess <=? 0 then Num z
  else
    let q := Z.shiftr m excess in
    let r := m - Z.shiftl q excess in
    let half := Z.shiftl 1 (excess - 1) in
    let q := if (half <? r) || ((r =? half) && Z.odd q) then q + 1 else q in
    let v := Z.shiftl q excess in
    if 2 ^ 1024 <=? v then Infinity (z <? 0) else Num (Z.sgn z * v).

(** [a ?? b] *)
Definition nullish {A} (a : option A) (b : A) : A :=
  match a with
  | Some x => x
  | None => b
  end.

(** Truthiness of [string | undefined]: the empty string is falsy. *)
Definition truthy (s : option string) : bool :=
  match s with
  | Some EmptyString => false
  | Some _ => true
  | None => false
  end.

(** [str.startsWith(prefix)] *)
Definition startsWith (str prefix : string) : bool := String.prefix prefix str.

(** [str.endsWith(suffix)] *)
Definition endsWith (str suffix : string) : bool :=
  String.prefix (String.rev suffix) (String.rev str).

(** [str.slice(n)] and [str.substring(n)] for [0 <= n]. *)
Fixpoint slice_from (n : nat) (s : string) : string :=
  match n, s with
  | O, _ => s
  | S _, EmptyString => EmptyString
  | S n', String _ rest => slice_from n' rest
  end.

(** [str.substring(0, n)] *)
Fixpoint substring_to (n : nat) (s : string) : string :=
  match n, s with
  | O, _ => EmptyString
  | S _, EmptyString => EmptyString
  | S n', String c rest => String c (substring_to n' rest)
  end.

(** [arr.includes(x)] on an array of strings. *)
Definition includes (arr : list string) (x : string) : bool :=
  existsb (String.eqb x) arr.

(** [str.split(sep)] for a one-character separator: always at least one
    part. *)
Fixpoint split_go (sep : ascii) (s : string) (cur : string) : list string :=
  match s with
  | EmptyString => [String.rev cur]
  | String c rest =>
      if Ascii.eqb c sep then String.rev cur :: split_go sep rest EmptyString
      else split_go sep rest (String c cur)
  end.

Definition split (s : string) (sep : ascii) : list string :=
  split_go sep s EmptyString.

(** White space and line terminators among the char codes below 256:
    TAB, LF, VT, FF, CR, SP and NBSP. *)
Definition isWhiteSpace (c : ascii) : bool :=
  let n := N_of_ascii c in
  ((9 <=? n) && (n <=? 13) || (n =? 32) || (n =? 160))%N.

Fixpoint trimStart (s : string) : string :=
  match s with
  | EmptyString => EmptyString
  | String c rest => if isWhiteSpace c then trimStart rest else s
  end.

(** [str.trim()] *)
Definition trim (s : string) : string :=
  String.rev (trimStart (String.rev (trimStart s))).

(** The value of a digit in the given radix (10 or 16). *)
Definition digitValue (radix : Z) (c : ascii) : option Z :=
  let n := Z.of_N (N_of_ascii c) in
  let v :=
    if (48 <=? n) && (n <=? 57) then Some (n - 48)
    else if (97 <=? n) && (n <=? 122) then Some (n - 87)
    else if (65 <=? n) && (n <=? 90) then Some (n - 55)
    else None in
  match v with
  | Some d => if d <? radix then Some d else None
  | None => None
  end.

(** The longest prefix of digits, read in [radix]; [None] when the string
    starts with no digit. *)
Fixpoint parseDigits (radix : Z) (s : string) (acc : option Z) : option Z :=
  match s with
  | EmptyString => acc
  | String c rest =>
      match digitValue radix c with
      | Some d => parseDigits radix rest (Some (nullish acc 0 * radix + d))
      | None => acc
      end
  end.

(** [parseInt(s)] with no radix argument: leading white space, a sign, an
    optional [0x] prefix, then digits; NaN when there is no digit.  The
    result is the Number value of the integer read, that is the nearest
    double ([Num 0] stands for both zeros). *)
Definition parseInt (s : string) : num :=
  let s := trimStart s in
  let '(sign, s) :=
    match s with
    | String "-" rest => (-1, rest)
    | String "+" rest => (1, rest)
    | _ => (1, s)
    end in
  let '(radix, s) :=
    match s with
    | String "0" (String "x" rest) => (16, rest)
    | String "0" (String "X" rest) => (16, rest)
    | _ => (10, s)
    end in
  match parseDigits radix s None with
  | Some v => roundToDouble (sign * v)
  | None => NaN
  end.

End Js.

(** ** netx.ts: the bubble hook *)

Module Netx.
Import Js.

(** [MessageType] is declared in net.ts; the hook names only [object], the
    other members are kept apart by their tag. *)
Inductive MessageType := object | otherType (tag : nat).

Definition MessageType_eqb (a b : MessageType) : bool :=
  match a, b with
  | object, object => true
  | otherType x, otherType y => Nat.eqb x y
  | _, _ => false
  end.

(** A [Net] is one connection to one peer; a node holds one per Link. *)
Definition NetId := nat.

(** A registered handler, named by the slot it was registered in. *)
Definition HandlerId := nat.

Section Bubble.
Variable Data : Type.

(** What a read hook receives: [{ type, id, data, header }]. *)
Record Message := {
  type : MessageType;
  id : string;
  data : Data;
  header : option (list string)
}.

(** What running a hook does to the world, in order. *)
Inductive Effect :=
| Send (net : NetId) (id : string) (data : Data) (header : list string)
| Invoke (handler : HandlerId) (id : string) (data : Data).

Definition removePrefix (str prefix : string) : string :=
  if startsWith str prefix then slice_from (String.length prefix) str
  else str.

(** [Net.prototype.sendBubble]: [this.send(`[bubble]${id}`, data, [nodeId])]. *)
Definition sendBubble (this : NetId) (id nodeId : string) (data : Data) : list Effect :=
  [Send this (String.append "[bubble]" id) data [nodeId]].

(** The read hook that [Net.prototype.addBubbleHook] installs on [this].
    [header as string[]] is only a cast: on a message without a header
    [nodeIds.includes] throws. *)
Definition bubbleHook (this : NetId) (nodeId : string) (handler : HandlerId)
    (m : Message) : completion (list Effect) :=
  if negb (MessageType_eqb (type m) object) then Returned []
  else if negb (startsWith (id m) "[bubble]") then Returned []
  else
    match header m with
    | None => Threw TypeError
    | Some nodeIds =>
        if includes nodeIds nodeId then Returned []
        else Returned
          [ Send this (id m) (data m) (nodeIds ++ [nodeId]);
            Invoke handler (removePrefix (id m) "[bubble]") (data m) ]
    end.

Definition ReadHook := Message -> completion (list Effect).

Record Net := {
  self : NetId;
  readHooks : list ReadHook
}.

(** Modelled from the spec: [Net.addReadHook] of net.ts registers one more
    hook that is run on each decoded inbound message of this connection. *)
Definition addReadHook (n : Net) (h : ReadHook) : Net :=
  {| self := self n; readHooks := readHooks n ++ [h] |}.

Definition addBubbleHook (n : Net) (nodeId : string) (handler : HandlerId) : Net :=
  addReadHook n (bubbleHook (self n) nodeId handler).

(** Modelled from the spec: the dispatch of one inbound message of net.ts
    runs the hooks in registration order; a hook that throws ends it. *)
Fixpoint runHooks (hooks : list ReadHook) (m : Message) : completion (list Effect) :=
  match hooks with
  | [] => Returned []
  | h :: rest =>
      bind (h m) (fun e1 => bind (runHooks rest m) (fun e2 => Returned (e1 ++ e2)))
  end.

Definition dispatch (n : Net) (m : Message) : completion (list Effect) :=
  runHooks (readHooks n) m.

(** *** A graph of nodes joined by connections

    Each connection has two ends, one [Net] at each node; [peer] names
    the other end. *)
Record Network := {
  nets : list Net;
  peer : NetId -> NetId
}.

Record State := {
  inflight : list (NetId * Message);
  invoked : list (HandlerId * string * Data);
  fault : bool
}.

(** Modelled from the spec: [Net.send] of net.ts, which is not among the
    sources.  The envelope written on one end of a connection arrives at
    the other end as a plain-object message with the same id, data and
    header ("Send(message): encrypts and frames the message, writes it");
    a call of a handler is recorded. *)
Definition deliver (nw : Network) (e : Effect) (s : State) : State :=
  match e with
  | Send n i d h =>
      {| inflight := inflight s ++
           [(peer nw n, {| type := object; id := i; data := d; header := Some h |})];
         invoked := invoked s;
         fault := fault s |}
  | Invoke k i d =>
      {| inflight := inflight s;
         invoked := invoked s ++ [(k, i, d)];
         fault := fault s |}
  end.

Definition perform (nw : Network) (es : list Effect) (s : State) : State :=
  fold_left (fun st e => deliver nw e st) es s.

Definition findNet (nw : Network) (n : NetId) : option Net :=
  find (fun x => Nat.eqb (self x) n) (nets nw).

(** One step: the oldest message in flight reaches its destination. *)
Definition step (nw : Network) (s : State) : State :=
  match inflight s with
  | [] => s
  | (dst, m) :: rest =>
      let s' := {| inflight := rest; invoked := invoked s; fault := fault s |} in
      match findNet nw dst with
      | None => s'
      | Some n =>
          match dispatch n m with
          | Returned es => perform nw es s'
          | Threw _ => {| inflight := rest; invoked := invoked s; fault := true |}
          end
      end
  end.

Fixpoint run (nw : Network) (fuel : nat) (s : State) : State :=
  match fuel with
  | O => s
  | S k => run nw k (step nw s)
  end.

Definition quiescent (s : State) : bool :=
  match inflight s with
  | [] => true
  | _ => false
  end.

Definition idle : State := {| inflight := []; invoked := []; fault := false |}.

(** Two nodes A and B joined by one connection: net 0 is A's end and
    carries A's bubble hook (handler 0), net 1 is B's end and carries
    B's bubble hook (handler 1). *)
Definition netA (nameA : string) : Net :=
  addBubbleHook {| self := 0%nat; readHooks := [] |} nameA 0%nat.

Definition netB (nameB : string) : Net :=
  addBubbleHook {| self := 1%nat; readHooks := [] |} nameB 1%nat.

Definition twoNodes (nameA nameB : string) : Network :=
  {| nets := [netA nameA; netB nameB];
     peer := fun n => match n with O => 1%nat | _ => 0%nat end |}.

(** A sends a bubble. *)
Definition cycleStart (nameA nameB id : string) (data : Data) : State :=
  perform (twoNodes nameA nameB) (sendBubble 0%nat id nameA data) idle.

Definition timesInvoked (k : HandlerId) (s : State) : nat :=
  length (List.filter (fun x => Nat.eqb (fst (fst x)) k) (invoked s)).

(** *** The algorithm in the words of the specification

    "Otherwise, invoke every locally registered handler [...].  Append
    N's name to the header and forward to every Link except the one the
    message arrived on." *)
Definition forwardPerSpec (links : list NetId) (arrival : NetId)
    (nodeId : string) (handler : HandlerId) (m : Message) : list Effect :=
  Invoke handler (removePrefix (id m) "[bubble]") (data m) ::
  map (fun l => Send l (id m) (data m) (nullish (header m) [] ++ [nodeId]))
      (List.filter (fun l => negb (Nat.eqb l arrival)) links).

End Bubble.

Arguments Send {Data}.
Arguments Invoke {Data}.
End Netx.

(** ** netx.ts: the batch string encoder of [BufferWriter] *)

Module Codec.
Import Js.

(** A byte is an integer in [0, 256); a string is its UTF-16 code units. *)
Definition jsstring := list Z.

Definition ofAscii (s : string) : jsstring :=
  map (fun c => Z.of_N (N_of_ascii c)) (list_ascii_of_string s).

(** *** The [utf8] encoding of Node's [Buffer] *)

Definition utf8CodePoint (c : Z) : list Z :=
  if c <? 128 then [c]
  else if c <? 2048 then
    [Z.lor 192 (Z.shiftr c 6); Z.lor 128 (Z.land c 63)]
  else if c <? 65536 then
    [Z.lor 224 (Z.shiftr c 12);
     Z.lor 128 (Z.land (Z.shiftr c 6) 63);
     Z.lor 128 (Z.land c 63)]
  else
    [Z.lor 240 (Z.shiftr c 18);
     Z.lor 128 (Z.land (Z.shiftr c 12) 63);
     Z.lor 128 (Z.land (Z.shiftr c 6) 63);
     Z.lor 128 (Z.land c 63)].

Definition isHighSurrogate (u : Z) : bool := (55296 <=? u) && (u <=? 56319).
Definition isLowSurrogate (u : Z) : bool := (56320 <=? u) && (u <=? 57343).

(** U+FFFD, written for a surrogate that has no partner. *)
Definition replacement : list Z := [239; 191; 189].

Fixpoint utf8 (s : jsstring) : list Z :=
  match s with
  | [] => []
  | u :: rest =>
      if isHighSurrogate u then
        match rest with
        | l :: rest' =>
            if isLowSurrogate l then
              utf8CodePoint (65536 + Z.shiftl (u - 55296) 10 + (l - 56320)) ++ utf8 rest'
            else replacement ++ utf8 rest
        | [] => replacement
        end
      else if isLowSurrogate u then replacement ++ utf8 rest
      else utf8CodePoint u ++ utf8 rest
  end.

(** *** Node's [Buffer] primitives *)

Definition int32BE (v : Z) : list Z :=
  [Z.land (Z.shiftr v 24) 255; Z.land (Z.shiftr v 16) 255;
   Z.land (Z.shiftr v 8) 255; Z.land v 255].

(** Overwrite [buf] from [offset] on with [bs] (which fits). *)
Definition writeAt (buf : list Z) (offset : nat) (bs : list Z) : list Z :=
  take offset buf ++ bs ++ drop (offset + length bs)%nat buf.

(** [buf.writeInt32BE(value, offset)]: throws when the value is no int32
    or when four bytes do not fit at [offset]. *)
Definition writeInt32BE (buf : list Z) (value : Z) (offset : nat) : completion (list Z) :=
  if (value <? - 2 ^ 31) || (2 ^ 31 - 1 <? value) then Threw RangeError
  else if (length buf <? offset + 4)%nat then Threw RangeError
  else Returned (writeAt buf offset (int32BE (value mod 2 ^ 32))).

(** [buf.readInt32BE(offset)] *)
Definition readInt32BE (buf : list Z) (offset : nat) : option Z :=
  match drop offset buf with
  | b0 :: b1 :: b2 :: b3 :: _ =>
      let u := b0 * 2 ^ 24 + b1 * 2 ^ 16 + b2 * 2 ^ 8 + b3 in
      Some (if u <? 2 ^ 31 then u else u - 2 ^ 32)
  | _ => None
  end.

Record BufferWriter := {
  backend : list Z;
  cursor : nat
}.

Section Strings.
(** The bytes of a string in the [encoding] passed to [strings]
    ([utf8] by default): [Buffer.byteLength(value, encoding)] is their
    number and [backend.write(value, offset, len, encoding)] writes
    them. *)
Variable encode : jsstring -> list Z.

(** [BufferWriter.prototype.ensureCapacity] is declared in buffer.ts. *)
Variable ensureCapacity : BufferWriter -> nat -> BufferWriter.

Definition byteLength (value : jsstring) : nat := length (encode value).

(** [buf.write(value, offset, len, encoding)]: at most [len] bytes and no
    more than the room left.  (Node cuts at a character boundary, which
    differs from a cut at a byte only when the room is short.) *)
Definition write (buf : list Z) (value : jsstring) (offset len : nat) : list Z :=
  writeAt buf offset (take (Nat.min len (length buf - offset)) (encode value)).

(** The callback that [writing] hands to its argument, run on each
    value in turn: it records the value with its byte length. *)
Definition record (acc : list (jsstring * nat) * nat) (value : jsstring)
    : list (jsstring * nat) * nat :=
  let len := byteLength value in
  (fst acc ++ [(value, len)], (snd acc + len)%nat).

Definition writeOne (w : BufferWriter) (entry : jsstring * nat) : BufferWriter :=
  {| backend := write (backend w) (fst entry) (cursor w) (snd entry);
     cursor := (cursor w + snd entry)%nat |}.

(** [BufferWriter.prototype.strings]; [writing] is given by the values it
    passes to [write], in order. *)
Definition strings (w : BufferWriter) (writing : list jsstring) : completion BufferWriter :=
  let acc := fold_left record writing ([], 0%nat) in
  let strs := fst acc in
  let totalLength := snd acc in
  let w1 := ensureCapacity w (totalLength + 4)%nat in
  bind (writeInt32BE (backend w1) (Z.of_nat totalLength) (cursor w1)) (fun b =>
    let w2 := {| backend := b; cursor := (cursor w1 + 4)%nat |} in
    Returned (fold_left writeOne strs w2)).

(** The bytes a writer holds between two cursor positions. *)
Definition written (from : nat) (w : BufferWriter) : list Z :=
  take (cursor w - from) (drop from (backend w)).

(** *** The encoding in the words of the specification

    "string fields are length-prefixed (4-byte big-endian length
    followed by UTF-8 bytes)": every string with its own prefix. *)
Definition stringsPerSpec (values : list jsstring) : list Z :=
  concat (map (fun v => int32BE (Z.of_nat (byteLength v)) ++ encode v) values).

End Strings.

(** What [strings] relies on when it calls [ensureCapacity(n)] on a writer
    whose cursor lies within its buffer: afterwards [n] bytes fit at the
    cursor, and neither the cursor nor the bytes before it have changed. *)
Definition ensuresCapacity (ensureCapacity : BufferWriter -> nat -> BufferWriter) : Prop :=
  forall (w : BufferWriter) (n : nat),
    (cursor w <= length (backend w))%nat ->
    cursor (ensureCapacity w n) = cursor w /\
    (cursor w + n <= length (backend (ensureCapacity w n)))%nat /\
    take (cursor w) (backend (ensureCapacity w n)) = take (cursor w) (backend w).

(** Modelled from the spec: the reader of buffer.ts, "callers decode by
    first reading a length prefix, then consuming exactly that many
    bytes".  It returns the bytes of the string and the next cursor. *)
Definition readString (buf : list Z) (cursor : nat) : option (list Z * nat) :=
  match readInt32BE buf cursor with
  | None => None
  | Some len =>
      if len <? 0 then None
      else
        let n := Z.to_nat len in
        if (length buf <? cursor + 4 + n)%nat then None
        else Some (take n (drop (cursor + 4)%nat buf), (cursor + 4 + n)%nat)
  end.

(** A growth policy that [ensureCapacity] may follow: extend the backing
    buffer with zero bytes up to what is asked, never shrink. *)
Definition growExact (w : BufferWriter) (n : nat) : BufferWriter :=
  {| backend := backend w ++ repeat 0 (cursor w + n - length (backend w));
     cursor := cursor w |}.

(** The frame that [strings] produces from a fresh writer. *)
Definition frame (values : list jsstring) : completion (list Z) :=
  bind (strings utf8 growExact {| backend := []; cursor := 0 |} values)
       (fun w => Returned (written 0 w)).

End Codec.

(** ** server.ts: what both revisions share *)

Module Http.
Import Js.

(** A [File] entry of the tree as JSON: ["*type"] is present on files
    only, [size] is its byte size. *)
Record File := {
  starType : option string;
  size : option Z
}.

(** [ResolvedFile] is declared in file.ts.  The plugin-era revision reads
    [inner] only; the early revision also reads [file.type] and
    [file.size]. *)
Record ResolvedFile := {
  inner : File;
  fileType : option string;
  fileSize : option Z
}.

Definition numOf (z : option Z) : num :=
  match z with
  | Some v => Num v
  | None => NaN
  end.

(** [file.inner.size] as a number. *)
Definition innerSize (file : ResolvedFile) : num := numOf (size (inner file)).

(** [resolved?.inner?.["*type"]] *)
Definition innerType (resolved : nullable ResolvedFile) : option string :=
  match resolved with
  | Ref r => starType (inner r)
  | _ => None
  end.

(** A readable stream: the bytes it delivers and whether it then emits
    ["error"]. *)
Record Readable := {
  chunks : list Z;
  fails : bool
}.

Record ReadOptions := {
  optStart : num;
  optEnd : num
}.

(** Header values are kept structured: the template
    [`bytes ${start}-${end}/${size}`] is [ContentRange start end size]. *)
Inductive HeaderValue :=
| Text (s : string)
| Number (n : num)
| ContentRange (first last total : num)
| MaxAge (ms : Z)
| Expires (at_ : Z).

(** [StatusText code] is the text of a status, which [sendStatus] sends
    as the body: [Internal Server Error] for 500. *)
Inductive Body :=
| NoBody
| JsonError (code : string)
| Bytes (bs : list Z)
| StatusText (code : Z).

(** The response; header names are stored in lower case, as Node does.
    [headers] holds what the handler has set.  To a body that express
    sends itself ([json], [send], [sendStatus]) it gives the content-type,
    content-length and etag of that body; those are not recorded. *)
Record Response := {
  statusCode : Z;
  headers : gmap string HeaderValue;
  body : Body;
  ended : bool
}.

Definition freshResponse : Response :=
  {| statusCode := 200; headers := ∅; body := NoBody; ended := false |}.

Definition status (res : Response) (code : Z) : Response :=
  {| statusCode := code; headers := headers res; body := body res; ended := ended res |}.

Definition setHeader (res : Response) (name : string) (v : HeaderValue) : Response :=
  {| statusCode := statusCode res; headers := <[name := v]> (headers res);
     body := body res; ended := ended res |}.

Definition send (res : Response) (b : Body) : Response :=
  {| statusCode := statusCode res; headers := headers res; body := b; ended := true |}.

(** [res.end()] *)
Definition finish (res : Response) : Response :=
  {| statusCode := statusCode res; headers := headers res; body := body res; ended := true |}.

(** [res.sendStatus(code)] while nothing has been written yet: the status
    is set and its text is sent. *)
Definition sendStatus (res : Response) (code : Z) : Response :=
  send (status res code) (StatusText code).

(** What [res.sendStatus] throws once the status and the headers are out
    (ERR_HTTP_HEADERS_SENT). *)
Definition headersSent : error :=
  Error "Cannot set headers after they are sent to the client".

(** [stream.on("error", _ => res.sendStatus(500)); stream.pipe(res)].
    The first byte that is written takes the status and the headers with
    it.  A stream that fails before its first byte is answered by
    [sendStatus(500)].  A stream that fails later leaves the status as it
    went out and the bytes delivered so far: [pipe] does not end the
    response, and [sendStatus] throws inside the listener. *)
Definition pipe (stream : Readable) (res : Response) : Response :=
  if fails stream then
    match chunks stream with
    | [] => sendStatus res 500
    | _ :: _ =>
        {| statusCode := statusCode res; headers := headers res;
           body := Bytes (chunks stream); ended := false |}
    end
  else send res (Bytes (chunks stream)).

(** The exception that escapes the ["error"] listener of [pipe]. *)
Definition thrownByListener (stream : Readable) : option error :=
  if fails stream then
    match chunks stream with
    | [] => None
    | _ :: _ => Some headersSent
    end
  else None.

(** What a request handler leaves behind: the response, the options of
    every read stream it asked for (plugins and node alike, in order),
    the error it was rejected with, if any, and the exception that
    escaped an event listener, if any (no rejection of the handler: Node
    reports it as uncaught). *)
Record Outcome := {
  response : Response;
  requested : list (option ReadOptions);
  rejected : option error;
  uncaught : option error
}.

Definition done_ (res : Response) (log : list (option ReadOptions)) : Outcome :=
  {| response := res; requested := log; rejected := None; uncaught := None |}.

(** The end of [pipeFile] when it has a stream. *)
Definition piped (stream : Readable) (res : Response)
    (log : list (option ReadOptions)) : Outcome :=
  {| response := pipe stream res; requested := log; rejected := None;
     uncaught := thrownByListener stream |}.

Definition removePrefix (origin prefix : string) : string :=
  if startsWith origin prefix then slice_from (String.length prefix) origin
  else origin.

Definition removeSuffix (origin suffix : string) : string :=
  if endsWith origin suffix
  then substring_to (String.length origin - String.length suffix) origin
  else origin.

Record Range := {
  start : option num;
  end_ : option num
}.

(** [resolveRange], the same text in both revisions. *)
Definition resolveRange (range : option string) : Range :=
  if negb (truthy range) then {| start := None; end_ := None |}
  else
    let range := nullish range EmptyString in
    if startsWith range "bytes=" then
      match split (removePrefix range "bytes=") "-" with
      | [p0; p1] =>
          let rangeStart := trim p0 in
          let rangeEnd := trim p1 in
          {| start :=
               if truthy (Some rangeStart) && (0 <? String.length rangeStart)%nat
               then Some (parseInt rangeStart) else None;
             end_ :=
               if truthy (Some rangeEnd) && (0 <? String.length rangeEnd)%nat
               then Some (parseInt rangeEnd) else None |}
      | _ => {| start := None; end_ := None |}
      end
    else {| start := None; end_ := None |}.

(** [node.createReadStream(file, options?)] of meditree.ts. *)
Definition CreateReadStream :=
  ResolvedFile -> option ReadOptions -> completion (nullable Readable).

(** *** The merged tree and its resolver (meditree.ts and file.ts) *)

Inductive Origin := Local (path : string) | Remote (node : string).

Inductive FileTreeEntry :=
| FileEntry (type : string) (size : Z) (origin : Origin)
| Directory (children : list (string * FileTreeEntry)).

(** Modelled from the spec: [resolve(pathSegments)] of the Resolver, which
    is not among the sources.  It "walks the MergedTree segment by
    segment; each segment must match a Directory or File name" (under the
    configured comparison [sameName]) and "signals not-found if any
    segment fails to match or the terminal entry is a Directory". *)
Fixpoint resolve (sameName : string -> string -> bool) (e : FileTreeEntry)
    (segments : list string) : option (string * Z * Origin) :=
  match segments with
  | [] =>
      match e with
      | FileEntry t s o => Some (t, s, o)
      | Directory _ => None
      end
  | seg :: rest =>
      match e with
      | FileEntry _ _ _ => None
      | Directory children =>
          (fix walk (cs : list (string * FileTreeEntry)) :=
             match cs with
             | [] => None
             | (name, child) :: cs' =>
                 if sameName name seg then resolve sameName child rest
                 else walk cs'
             end) children
      end
  end.

(** The two ways a path fails, in the words of the specification: a
    segment matches no entry (of a directory, or because a file has no
    entries), or the walk ends on a Directory.  The walk follows the first
    entry whose name matches. *)
Inductive Unmatched (sameName : string -> string -> bool)
    : FileTreeEntry -> list string -> Prop :=
| ends_on_directory children :
    Unmatched sameName (Directory children) []
| segment_below_file t s o seg rest :
    Unmatched sameName (FileEntry t s o) (seg :: rest)
| segment_matches_nothing children seg rest :
    (forall name child, In (name, child) children -> sameName name seg = false) ->
    Unmatched sameName (Directory children) (seg :: rest)
| fails_below before name child after seg rest :
    (forall n c, In (n, c) before -> sameName n seg = false) ->
    sameName name seg = true ->
    Unmatched sameName child rest ->
    Unmatched sameName (Directory (before ++ (name, child) :: after)) (seg :: rest).

(** Modelled from the spec: [node.resolveFile], the resolver above with
    its answer as a [ResolvedFile] or [null]. *)
Definition resolveFile (sameName : string -> string -> bool) (tree : FileTreeEntry)
    (pathParts : list string) : nullable ResolvedFile :=
  match resolve sameName tree pathParts with
  | Some (t, s, _) =>
      Ref {| inner := {| starType := Some t; size := Some s |};
             fileType := Some t; fileSize := Some s |}
  | None => Null
  end.

(** The bytes of [content] from offset [a] to offset [b], both included. *)
Definition slice (content : list Z) (a b : Z) : list Z :=
  take (Z.to_nat (b - a + 1)) (drop (Z.to_nat a) content).

(** Modelled from the spec: [openStream] on a local origin, which is not
    among the sources.  "If range is given, seek to range.start and limit
    the stream to range.end - range.start + 1 bytes; if omitted, stream
    the whole file.  Range bounds are clamped and a start beyond
    end-of-file is an error"; the error is a RangeError "(start beyond
    size, or start > end)". *)
Definition openStream (content : list Z) (range : option (Z * Z)) : completion Readable :=
  match range with
  | None => Returned {| chunks := content; fails := false |}
  | Some (a, b) =>
      let size := Z.of_nat (length content) in
      if (size <? a) || (b <? a) then Threw RangeError
      else Returned {| chunks := slice content (Z.max 0 a) (Z.min b (size - 1));
                       fails := false |}
  end.

(** Modelled from the spec: [node.createReadStream] of meditree.ts for a
    file stored on this node with bytes [content], which "delegates to"
    [openStream]; bounds that are no numbers are a RangeError. *)
Definition localCreateReadStream (content : list Z) : CreateReadStream :=
  fun _ options =>
    match options with
    | None => bind (openStream content None) (fun r => Returned (Ref r))
    | Some {| optStart := Num a; optEnd := Num b |} =>
        bind (openStream content (Some (a, b))) (fun r => Returned (Ref r))
    | Some _ => Threw RangeError
    end.

End Http.

(** ** server.ts, plugin-era revision *)

Module Server.
Import Js Http.

(** The hooks of a plugin that the file route calls.  [onFileRequested]
    answers whether the request is to be refused. *)
Record MeditreePlugin := {
  onNodeCreateReadStream :
    option (ResolvedFile -> ReadOptions -> completion (nullable Readable));
  onFileRequested : option (ResolvedFile -> completion bool)
}.

Record AppConfig := {
  passcode : option string;
  cacheMaxAge : Z;
  fileType : list (string * string)
}.

Record Request := {
  url : string;              (* req.baseUrl + req.path *)
  queryPasscode : option string;
  range : option string      (* req.headers.range *)
}.

(** [node.subNodeFilter] *)
Definition subNodeFilter (config : AppConfig) (file : File) : bool :=
  let fileTypes := map snd (fileType config) in
  negb (truthy (starType file)) ||
  match starType file with
  | Some t => includes fileTypes t
  | None => false
  end.

(** The loop over the plugins in [pipeFile]: it stops at the first plugin
    that answers anything but [undefined]. *)
Fixpoint askPlugins (plugins : list MeditreePlugin) (file : ResolvedFile)
    (options : ReadOptions) (stream : nullable Readable)
    (log : list (option ReadOptions))
    : completion (nullable Readable) * list (option ReadOptions) :=
  match plugins with
  | [] => (Returned stream, log)
  | plugin :: rest =>
      match stream with
      | Undefined =>
          match onNodeCreateReadStream plugin with
          | Some hook =>
              match hook file options with
              | Returned s => askPlugins rest file options s (log ++ [Some options])
              | Threw e => (Threw e, log ++ [Some options])
              end
          | None => askPlugins rest file options stream log
          end
      | _ => (Returned stream, log)
      end
  end.

Definition pipeFile (plugins : list MeditreePlugin) (createReadStream : CreateReadStream)
    (req : Request) (res : Response) (file : ResolvedFile) : Outcome :=
  let r := resolveRange (range req) in
  let start := nullish (start r) (Num 0) in
  let end_ := nullish (end_ r) (num_sub (innerSize file) (Num 1)) in
  let retrievedLength := num_sub (num_add end_ (Num 1)) start in
  let res := status res (if truthy (range req) then 206 else 200) in
  let res := setHeader res "content-length" (Number retrievedLength) in
  let res :=
    if truthy (range req) then
      setHeader
        (setHeader res "content-range" (ContentRange start end_ (innerSize file)))
        "accept-ranges" (Text "bytes")
    else res in
  let options := {| optStart := start; optEnd := end_ |} in
  match askPlugins plugins file options Undefined [] with
  | (Threw e, log) =>
      {| response := res; requested := log; rejected := Some e;
         uncaught := None |}
  | (Returned stream, log) =>
      let '(stream, log) :=
        match stream with
        | Undefined => (createReadStream file (Some options), log ++ [Some options])
        | _ => (Returned stream, log)
        end in
      match stream with
      | Threw e =>
          {| response := res; requested := log; rejected := Some e;
             uncaught := None |}
      | Returned (Ref s) => piped s res log
      | Returned _ => done_ (finish (status res 404)) log
      end
  end.

(** The bounds [start] and [end] that [pipeFile] works with, after
    [start ??= 0] and [end ??= file.inner.size - 1]. *)
Definition bounds (req : Request) (file : ResolvedFile) : ReadOptions :=
  let r := resolveRange (range req) in
  {| optStart := nullish (start r) (Num 0);
     optEnd := nullish (end_ r) (num_sub (innerSize file) (Num 1)) |}.

(** [(end + 1) - start] *)
Definition retrievedLength (o : ReadOptions) : num :=
  num_sub (num_add (optEnd o) (Num 1)) (optStart o).

(** The loop over the plugins in the route: the first plugin whose
    [onFileRequested] answers true refuses the request. *)
Fixpoint refusedByPlugin (plugins : list MeditreePlugin) (resolved : ResolvedFile)
    : completion bool :=
  match plugins with
  | [] => Returned false
  | plugin :: rest =>
      match onFileRequested plugin with
      | Some hook =>
          bind (hook resolved) (fun refused =>
            if refused then Returned true else refusedByPlugin rest resolved)
      | None => refusedByPlugin rest resolved
      end
  end.

Section Route.
Variable config : AppConfig.
(** [decodeURI]; [None] when it throws a URIError. *)
Variable decodeURI : string -> option string.
(** [Date.now()] at the time of the request. *)
Variable now : Z.
Variable nodeResolveFile : list string -> nullable ResolvedFile.
Variable plugins : list MeditreePlugin.
Variable createReadStream : CreateReadStream.

(** [passcodeHandler]: [None] stands for the call of [next()]. *)
Definition passcodeHandler (req : Request) (res : Response) : option Response :=
  if negb (truthy (passcode config)) then None
  else
    match decodeURI (nullish (queryPasscode req) "undefined") with
    | Some given =>
        if negb (String.eqb given (nullish (passcode config) EmptyString))
        then Some (send (status res 401) (JsonError "incorrectPasscode"))
        else None
    | None => Some (send (status res 400) (JsonError "badURI"))
    end.

(** The handler of the GET route on [/file] and all paths below it,
    which runs after [passcodeHandler]. *)
Definition fileHandler (req : Request) (res : Response) : Outcome :=
  match decodeURI (url req) with
  | None => done_ (send (status res 400) (JsonError "badURI")) []
  | Some uri =>
      let path := removePrefix uri "/file/" in
      let path := removeSuffix path "/" in
      let resolved := nodeResolveFile (split path "/") in
      if negb (truthy (innerType resolved)) then done_ (finish (status res 404)) []
      else
        match resolved with
        | Ref file =>
            match refusedByPlugin plugins file with
            | Threw e =>
                {| response := res; requested := []; rejected := Some e;
                   uncaught := None |}
            | Returned true => done_ (finish (status res 400)) []
            | Returned false =>
                let fileType := nullish (innerType resolved) EmptyString in
                let res := setHeader res "content-type" (Text fileType) in
                let res := setHeader res "expires" (Expires (now + cacheMaxAge config)) in
                let res := setHeader res "cache-control" (MaxAge (cacheMaxAge config)) in
                pipeFile plugins createReadStream req res file
            end
        | _ => done_ (finish (status res 404)) []
        end
  end.

(** The whole route: the passcode gate, then the handler. *)
Definition fileRoute (req : Request) : Outcome :=
  match passcodeHandler req freshResponse with
  | Some res => done_ res []
  | None => fileHandler req freshResponse
  end.
End Route.

End Server.

(** ** server.ts, early revision *)

Module ServerLegacy.
Import Js Http.

Record AppConfig := {
  cacheMaxAge : Z;
  fileType : list (string * string)
}.

Record Request := {
  url : string;              (* req.baseUrl + req.path *)
  range : option string      (* req.headers.range *)
}.

(** [node.subNodeFilter] *)
Definition subNodeFilter (config : AppConfig) (file : File) : bool :=
  let fileTypes := map snd (fileType config) in
  match starType file with
  | Some t => includes fileTypes t
  | None => false
  end.

Definition isDefined {A} (x : option A) : bool :=
  match x with
  | Some _ => true
  | None => false
  end.

(** The end of [pipeFile] in either branch. *)
Definition respond (stream : completion (nullable Readable)) (res : Response)
    (log : list (option ReadOptions)) : Outcome :=
  match stream with
  | Threw e =>
      {| response := res; requested := log; rejected := Some e;
         uncaught := None |}
  | Returned (Ref s) => piped s res log
  | Returned _ => done_ (finish (status res 404)) log
  end.

Definition pipeFile (createReadStream : CreateReadStream)
    (req : Request) (res : Response) (file : ResolvedFile) : Outcome :=
  match size (inner file) with
  | Some _ =>
      let r := resolveRange (range req) in
      (* start ??= 0; end ??= file.size - 1 *)
      let start := Some (nullish (start r) (Num 0)) in
      let end_ := Some (nullish (end_ r) (num_sub (numOf (fileSize file)) (Num 1))) in
      let startValue := nullish start NaN in
      let endValue := nullish end_ NaN in
      let retrievedLength := num_sub (num_add endValue (Num 1)) startValue in
      (* start !== undefined || end !== undefined ? 206 : 200 *)
      let res := status res (if isDefined start || isDefined end_ then 206 else 200) in
      let res := setHeader res "content-length" (Number retrievedLength) in
      let res :=
        if truthy (range req) then
          setHeader
            (setHeader res "content-range" (ContentRange startValue endValue (innerSize file)))
            "accept-ranges" (Text "bytes")
        else res in
      let options := {| optStart := startValue; optEnd := endValue |} in
      respond (createReadStream file (Some options)) res [Some options]
  | None => respond (createReadStream file None) res [None]
  end.

(** The bounds [start] and [end] that [pipeFile] works with, after
    [start ??= 0] and [end ??= file.size - 1]. *)
Definition bounds (req : Request) (file : ResolvedFile) : ReadOptions :=
  let r := resolveRange (range req) in
  {| optStart := nullish (start r) (Num 0);
     optEnd := nullish (end_ r) (num_sub (numOf (fileSize file)) (Num 1)) |}.

(** [(end + 1) - start] *)
Definition retrievedLength (o : ReadOptions) : num :=
  num_sub (num_add (optEnd o) (Num 1)) (optStart o).

Section Route.
Variable config : AppConfig.
(** [decodeURI]; [None] when it throws a URIError. *)
Variable decodeURI : string -> option string.
Variable nodeResolveFile : list string -> nullable ResolvedFile.
Variable createReadStream : CreateReadStream.

(** The handler of the GET route on [/file] and all paths below it. *)
Definition fileHandler (req : Request) (res : Response) : Outcome :=
  match decodeURI (url req) with
  | None =>
      {| response := res; requested := []; rejected := Some URIError;
         uncaught := None |}
  | Some uri =>
      let path := removePrefix uri "/file/" in
      match nodeResolveFile (split path "/") with
      | Ref file =>
          match starType (inner file) with
          | Some _ =>
              let res := setHeader res "content-type"
                           (Text (nullish (Http.fileType file) EmptyString)) in
              let res := setHeader res "cache-control" (MaxAge (cacheMaxAge config)) in
              pipeFile createReadStream req res file
          | None => done_ (finish (status res 404)) []
          end
      | _ => done_ (finish (status res 404)) []
      end
  end.
End Route.

End ServerLegacy.

(** ** host.ts: [HostTree] *)

Module Host.
Import Js.

Section HostTree.
(** [LocalFileTree] and [LocalFile] are declared in file.ts, with the
    tree's own [resolveFile]. *)
Variables LocalFileTree LocalFile : Type.
Variable treeResolveFile :
  LocalFileTree -> list string -> completion (nullable LocalFile).
(** [minimatch(path, pattern, { nocase: true })] *)
Variable minimatch : string -> string -> bool.

Record HostTreeOptions := {
  optRoot : string;
  optName : string;
  pattern2FileType : list (string * string);
  ignorePattern : list string
}.

Definition makeFSOFilter (ignorePattern : list string) : string -> bool :=
  fun path => negb (existsb (fun ignore => minimatch path ignore) ignorePattern).

Definition makeFilePathClassifier (fileTypePattern : list (string * string))
    : string -> option string :=
  fun path =>
    match find (fun entry => minimatch path (fst entry)) fileTypePattern with
    | Some (_, type) => Some type
    | None => None
    end.

(** The fields of a [HostTree]; [fileTree] has no initializer. *)
Record HostTree := {
  root : string;
  fileTree : option LocalFileTree;
  filePathClassifier : string -> option string;
  fileFilter : string -> bool
}.

Definition constructor (options : HostTreeOptions) : HostTree :=
  {| root := optRoot options;
     fileTree := None;
     filePathClassifier := makeFilePathClassifier (pattern2FileType options);
     fileFilter := makeFSOFilter (ignorePattern options) |}.

(** [return this.fileTree?.resolveFile(pathParts)] *)
Definition resolveFile (h : HostTree) (pathParts : list string)
    : completion (nullable LocalFile) :=
  match fileTree h with
  | None => Returned Undefined
  | Some tree => treeResolveFile tree pathParts
  end.

(** What happens to a [HostTree] over time.  [rebuildFileTree] awaits
    [createFileTreeFrom] and assigns [fileTree] only when it is back:
    the call begins, and later it completes with a tree or fails. *)
Inductive Event :=
| Start
| Stop
| RebuildBegins
| RebuildCompletes (tree : LocalFileTree)
| RebuildFails
| Resolves (pathParts : list string).

Definition step (h : HostTree) (e : Event) : HostTree :=
  match e with
  | RebuildCompletes tree =>
      {| root := root h; fileTree := Some tree;
         filePathClassifier := filePathClassifier h; fileFilter := fileFilter h |}
  | _ => h
  end.

Definition after (options : HostTreeOptions) (events : list Event) : HostTree :=
  fold_left step events (constructor options).

Definition isCompletion (e : Event) : bool :=
  match e with
  | RebuildCompletes _ => true
  | _ => false
  end.
End HostTree.
End Host.

(** ** config.ts *)

Module Config.
Import Js.

(** The values a configuration holds. *)
Inductive value :=
| Str (s : string)
| Int (n : Z)
| Dict (entries : list (string * string))
| Strings (items : list string).

(** A configuration object: its own properties. *)
Abbreviation object := (gmap string value).

Definition truthyValue (v : option value) : bool :=
  match v with
  | None => false
  | Some (Str EmptyString) => false
  | Some (Int 0) => false
  | Some _ => true
  end.

(** [Object.assign(target, source)]: the properties of the source win. *)
Definition assign (target source : object) : object := source ∪ target.

(** The heap of objects; a reference is an index into it. *)
Abbreviation Heap := (list object).
Abbreviation ref := nat.

Definition deref (h : Heap) (r : ref) : object := default ∅ (h !! r).

Definition alloc (o : object) (h : Heap) : ref * Heap := (length h, h ++ [o]).

(** [r[key] = v] *)
Definition setProperty (r : ref) (key : string) (v : value) (h : Heap) : Heap :=
  alter (insert key v) r h.

(** A directory is an absolute path, given by its segments from the
    innermost one up to the root; a file path likewise. *)
Abbreviation Path := (list string).

(** [path.join(dir, fileName)] *)
Definition join (dir : Path) (fileName : string) : Path := fileName :: dir.

(** [path.dirname(dir)]; the root is its own parent. *)
Definition dirname (dir : Path) : Path := tail dir.

(** The file system: each file holds a JSON object, kept parsed
    ([JSON.parse] of [JSON.stringify] gives the object back). *)
Record World := {
  heap : Heap;
  files : gmap Path object
}.

(** [findFsEntryInTree]: the loop ends at the root, where [dirname]
    returns its argument. *)
Fixpoint findFsEntryInTree (fs : gmap Path object) (dir : Path) (fileName : string)
    : option Path :=
  let configFile := join dir fileName in
  match fs !! configFile with
  | Some _ => Some configFile
  | None =>
      match dir with
      | [] => None
      | _ :: parent => findFsEntryInTree fs parent fileName
      end
  end.

Section Setup.
(** [process.platform === "darwin"] *)
Variable darwin : bool.
(** The pair that [nacl.box.keyPair()] draws, both keys in base64. *)
Variable freshPublicKey freshSecretKey : string.
(** [nacl.box.keyPair.fromSecretKey(key).publicKey] in base64.  It
    throws on a key it does not accept: a TypeError on anything but a
    Uint8Array, and so on every key that a configuration read from JSON
    holds. *)
Variable fromSecretKey : value -> completion string.
(** The identifier that [uuidv4()] draws. *)
Variable uuid : string.

Definition defaultConfig : object :=
  let base : object :=
    <["root" := Str "."]>
    (<["port" := Int 80]>
    (<["rebuildInterval" := Int 3000]>
    (<["fileType" := Dict
         [("video/mp4", "video"); ("image/png", "image"); ("image/jpeg", "image");
          ("image/svg+xml", "image"); ("image/gif", "image"); ("image/webp", "image");
          ("audio/mpeg", "audio"); ("text/markdown", "text"); ("text/plain", "text")]]>
    (<["fileTypePattern" := Dict
         [("**/*.mp4", "video/mp4"); ("**/*.svg", "image/svg+xml");
          ("**/*.png", "image/png"); ("**/*.+(jpeg|jpg)", "image/jpeg");
          ("**/*.mp3", "audio/mpeg"); ("**/*.md", "text/markdown");
          ("**/*.txt", "text/plain"); ("**/*.gif", "image/gif");
          ("**/*.webp", "image/webp")]]> ∅)))) in
  if darwin then <["ignore" := Strings ["**/*.app"; "**/*.DS_Store"]]> base
  else base.

(** [setupConfig(config)]: it works on a fresh copy made by
    [Object.assign({}, config, defaultConfig)] and returns that copy;
    its argument is left as it was. *)
Definition setupConfig (config : ref) (h : Heap) : completion ref * Heap :=
  let '(c, h) := alloc (assign (assign ∅ (deref h config)) defaultConfig) h in
  let keys : completion Heap :=
    if truthyValue (deref h c !! "privateKey") then
      if negb (truthyValue (deref h c !! "publicKey")) then
        match fromSecretKey (default (Str EmptyString) (deref h c !! "privateKey")) with
        | Returned pk => Returned (setProperty c "publicKey" (Str pk) h)
        | Threw e => Threw e
        end
      else Returned h
    else if negb (truthyValue (deref h c !! "publicKey")) then
      Returned (setProperty c "privateKey" (Str freshSecretKey)
                 (setProperty c "publicKey" (Str freshPublicKey) h))
    else Returned h in
  match keys with
  | Threw e => (Threw e, h)
  | Returned h =>
      let h :=
        if negb (truthyValue (deref h c !! "name"))
        then setProperty c "name" (Str uuid) h else h in
      (Returned c, h)
  end.

(** [findConfig({ rootDir, filename })] *)
Definition findConfig (rootDir : Path) (filename : string) (w : World)
    : completion ref * World :=
  match findFsEntryInTree (files w) rootDir filename with
  | Some configFile =>
      let parsed := default ∅ (files w !! configFile) in
      let '(config, h) := alloc (assign (assign ∅ defaultConfig) parsed) (heap w) in
      match setupConfig config h with
      | (Threw e, h) => (Threw e, {| heap := h; files := files w |})
      | (Returned _, h) =>
          (Returned config,
           {| heap := h; files := <[configFile := deref h config]> (files w) |})
      end
  | None =>
      let configFile := join rootDir filename in
      let '(empty, h) := alloc ∅ (heap w) in
      match setupConfig empty h with
      | (Threw e, h) => (Threw e, {| heap := h; files := files w |})
      | (Returned made, h) =>
          (Threw (Error "Configuration not found."),
           {| heap := h; files := <[configFile := deref h made]> (files w) |})
      end
  end.
End Setup.
End Config.

(** ** Plain objects *)

Module Obj.
Import Js.

(** The own properties of [Object.prototype]: on a plain object a lookup
    of one of these names that finds no own property finds the inherited
    one, which is truthy and is no number. *)
Definition prototypeKeys : list string :=
  ["constructor"; "__defineGetter__"; "__defineSetter__"; "hasOwnProperty";
   "__lookupGetter__"; "__lookupSetter__"; "isPrototypeOf";
   "propertyIsEnumerable"; "toString"; "valueOf"; "__proto__"; "toLocaleString"].

Definition inherited (key : string) : bool := includes prototypeKeys key.

End Obj.

(** ** timer.ts *)

Module Timer.
Import Js.

(** [name2StartTime] is only ever assigned [{ [name]: Date.now() }], an
    object with one own property. *)
Record Timer := {
  startTime : option Z;
  name2StartTime : option (string * Z)
}.

Definition fresh : Timer := {| startTime := None; name2StartTime := None |}.

(** [start(name?)]; [now] is what [Date.now()] returns. *)
Definition start (t : Timer) (name : option string) (now : Z) : Timer :=
  if truthy name
  then {| startTime := startTime t;
          name2StartTime := Some (nullish name EmptyString, now) |}
  else {| startTime := Some now; name2StartTime := name2StartTime t |}.

(** What [this.name2StartTime?.[name]] evaluates to. *)
Inductive looked := Absent | Time (t : Z) | Inherited.

Definition lookupName (t : Timer) (name : string) : looked :=
  match name2StartTime t with
  | None => Absent
  | Some (key, at_) =>
      if String.eqb key name then Time at_
      else if Obj.inherited name then Inherited
      else Absent
  end.

(** The line handed to [log]: [`${name}: ${time}ms`] or [`${time}ms`]. *)
Record Line := {
  label : option string;
  elapsed : num
}.

(** [stop(name?, log?)]: the time returned and the line logged.  The timer
    itself is left as it is. *)
Definition stop (t : Timer) (name : option string) (now : Z) : num * Line :=
  let startTime :=
    if truthy name then lookupName t (nullish name EmptyString)
    else match startTime t with
         | Some at_ => Time at_
         | None => Absent
         end in
  let time :=
    match startTime with
    | Time 0 => Num 0
    | Time at_ => Num (now - at_)
    | Inherited => NaN
    | Absent => Num 0
    end in
  (time, {| label := if truthy name then name else None; elapsed := time |}).

End Timer.

(** ** StarChart.js *)

Module StarChart.
Import Js.

(** What the item ["star-chart"] of [localStorage] holds, parsed: the
    object that [save] wrote, or the JSON [null]. *)
Inductive Json := JNull | JObject (o : gmap string Z).

Record StarChart := {
  path2Star : gmap string Z;
  item : option Json
}.

(** [this.#path2Star[path]] as a condition: an own property counts when
    its value is not 0, and without an own property an inherited one
    counts. *)
Definition lookupTruthy (o : gmap string Z) (path : string) : bool :=
  match o !! path with
  | Some v => negb (v =? 0)
  | None => Obj.inherited path
  end.

Definition save (c : StarChart) : StarChart :=
  {| path2Star := path2Star c; item := Some (JObject (path2Star c)) |}.

Definition star (c : StarChart) (path : string) : StarChart :=
  if lookupTruthy (path2Star c) path then c
  else save {| path2Star := <[path := 1]> (path2Star c); item := item c |}.

Definition unstar (c : StarChart) (path : string) : StarChart :=
  if negb (lookupTruthy (path2Star c) path) then c
  else save {| path2Star := delete path (path2Star c); item := item c |}.

Definition isStarred (c : StarChart) (path : string) : bool :=
  lookupTruthy (path2Star c) path.

(** [json ? JSON.parse(json) ?? {} : {}] *)
Definition load (c : StarChart) : StarChart :=
  {| path2Star := match item c with
                  | Some (JObject o) => o
                  | Some JNull => ∅
                  | None => ∅
                  end;
     item := item c |}.

Inductive Op := Star (path : string) | Unstar (path : string).

Definition apply (c : StarChart) (op : Op) : StarChart :=
  match op with
  | Star p => star c p
  | Unstar p => unstar c p
  end.

End StarChart.

(** ** models/FileTree.js: [filter] *)

Module RenderTree.

(** [arr.filter(child => child !== null)] *)
Fixpoint nonNull {A : Type} (arr : list (option A)) : list A :=
  match arr with
  | [] => []
  | Some child :: rest => child :: nonNull rest
  | None :: rest => nonNull rest
  end.

Section Filter.
(** The properties of a node other than [children]. *)
Variable Attrs : Type.

(** A node of the render tree; a file has no [children] property. *)
Inductive Node := node (attrs : Attrs) (children : option (list Node)).

Variable searchDelegate : Attrs -> bool.

Fixpoint filterTree (tree : Node) : option Node :=
  match tree with
  | node attrs None => if searchDelegate attrs then Some tree else None
  | node attrs (Some children) =>
      let filteredChildren := nonNull (List.map filterTree children) in
      match filteredChildren with
      | [] => None
      | _ => Some (node attrs (Some filteredChildren))
      end
  end.

Definition attrsOf (tree : Node) : Attrs :=
  match tree with
  | node attrs _ => attrs
  end.

(** [filter(renderTree, searchDelegate)] *)
Definition filter (renderTree : Node) : Node :=
  match filterTree renderTree with
  | Some root => root
  | None => node (attrsOf renderTree) (Some [])
  end.

(** The files of a tree, from left to right. *)
Fixpoint files (tree : Node) : list Attrs :=
  match tree with
  | node attrs None => [attrs]
  | node attrs (Some children) => concat (List.map files children)
  end.

(** The files of what [filterTree] returns; [null] has none. *)
Definition filesOf (found : option Node) : list Attrs :=
  match found with
  | Some tree => files tree
  | None => []
  end.

(** No directory in the tree is empty. *)
Fixpoint populated (tree : Node) : bool :=
  match tree with
  | node _ None => true
  | node _ (Some children) =>
      match children with
      | [] => false
      | _ => forallb populated children
      end
  end.

End Filter.
End RenderTree.

(** ** plugin/auth.ts *)

Module Auth.
Import Js.

Record Request := {
  cookieJwt : nullable string;     (* req.cookies.jwt *)
  bodyJwt : nullable string;       (* req.body.jwt *)
  authorization : option string    (* req.headers.authorization *)
}.

(** [a ?? b] on references. *)
Definition orElse {A} (a b : nullable A) : nullable A :=
  match a with
  | Ref _ => a
  | _ => b
  end.

(** [arr[i]] *)
Definition at_ (arr : list string) (i : nat) : nullable string :=
  match nth_error arr i with
  | Some s => Ref s
  | None => Undefined
  end.

Definition getJwtFromAuthHeader (req : Request) : nullable string :=
  match authorization req with
  | None => Null
  | Some EmptyString => Null
  | Some authHeader =>
      let scheme := split authHeader " " in
      match at_ scheme 0 with
      | Ref "Bearer" => at_ scheme 1
      | _ => Null
      end
  end.

Inductive Answer :=
| Next
| Refused (status : Z) (message : string).

Section Middleware.
(** [jwt.verify(token, jwtSecret)]: it throws on a token it rejects;
    otherwise it gives the payload, of which the middleware reads
    [account], here [Some] when that is a string. *)
Variable verify : string -> completion (option string).
(** [storage.getUser(account)]; [None] stands for [null]. *)
Variable User : Type.
Variable getUser : string -> completion (option User).

(** The middleware bound to [MeditreeType.Auth]. *)
Definition authenticate (req : Request) : Answer :=
  let token := orElse (cookieJwt req) (orElse (bodyJwt req) (getJwtFromAuthHeader req)) in
  match token with
  | Ref EmptyString => Refused 401 "Token Missing"
  | Ref token =>
      match verify token with
      | Threw _ => Refused 401 "Auth Error"
      | Returned None => Refused 401 "Token Invalid"
      | Returned (Some account) =>
          match getUser account with
          | Threw _ => Refused 401 "Auth Error"
          | Returned None => Refused 401 "Token Invalid"
          | Returned (Some _) => Next
          end
      end
  | _ => Refused 401 "Token Missing"
  end.
End Middleware.

End Auth.

(** ** host.ts: [HostTree.toJSON] *)

Module HostJson.
Import Js.

Section ToJSON.
Variables LocalFileTree FileTree : Type.
(** [LocalFileTree.toJSON] of file.ts. *)
Variable treeToJSON : LocalFileTree -> completion FileTree.

(** [return this.fileTree.toJSON()], with no guard on [fileTree]. *)
Definition toJSON (h : Host.HostTree LocalFileTree) : completion FileTree :=
  match Host.fileTree _ h with
  | None => Threw TypeError
  | Some tree => treeToJSON tree
  end.
End ToJSON.
End HostJson.

(** ** [parseInt], with tests in place of patterns *)

Module ParseIntView.
Import Js.

(** The sign that [parseInt] reads and what follows it. *)
Definition signOf (s : string) : Z * string :=
  match s with
  | String c rest =>
      if Ascii.eqb c "-" then (-1, rest)
      else if Ascii.eqb c "+" then (1, rest)
      else (1, s)
  | EmptyString => (1, s)
  end.

(** The radix that [parseInt] picks and what follows the prefix. *)
Definition radixOf (s : string) : Z * string :=
  match s with
  | String c (String x rest) =>
      if Ascii.eqb c "0" && (Ascii.eqb x "x" || Ascii.eqb x "X") then (16, rest)
      else (10, s)
  | _ => (10, s)
  end.

(** [parseInt] again, for use in proofs; [parseInt_view] shows that it is
    the same function. *)
Definition parseIntView (s : string) : num :=
  let '(sign, s) := signOf (trimStart s) in
  let '(radix, s) := radixOf s in
  match parseDigits radix s None with
  | Some v => roundToDouble (sign * v)
  | None => NaN
  end.

End ParseIntView.

(** ** [setupConfig], on the copy alone *)

Module ConfigView.
Import Js Config.

Section Prepared.
Variable freshPublicKey freshSecretKey : string.
Variable fromSecretKey : value -> completion string.
Variable uuid : string.

(** What [setupConfig] does to the copy it has made: the keys, then the
    name.  [setupConfig_view] shows that [setupConfig] allocates the copy,
    applies this to it and returns its reference. *)
Definition prepared (copy : object) : completion object :=
  let keys : completion object :=
    if truthyValue (copy !! "privateKey") then
      if negb (truthyValue (copy !! "publicKey")) then
        match fromSecretKey (default (Str EmptyString) (copy !! "privateKey")) with
        | Returned pk => Returned (<["publicKey" := Str pk]> copy)
        | Threw e => Threw e
        end
      else Returned copy
    else if negb (truthyValue (copy !! "publicKey")) then
      Returned (<["privateKey" := Str freshSecretKey]>
                  (<["publicKey" := Str freshPublicKey]> copy))
    else Returned copy in
  match keys with
  | Threw e => Threw e
  | Returned withKeys =>
      Returned (if negb (truthyValue (withKeys !! "name"))
                then <["name" := Str uuid]> withKeys else withKeys)
  end.
End Prepared.
End ConfigView.

(** * Properties *)

(** ** [HostTree.resolveFile] before the first rebuild *)

Section HostTreeFacts.
Import Js Host.
Context {LocalFileTree LocalFile : Type}.
Variable treeResolveFile :
  LocalFileTree -> list string -> completion (nullable LocalFile).
Variable minimatch : string -> string -> bool.

Lemma fileTree_unassigned_until_completion
    (h : HostTree LocalFileTree) (events : list (Event LocalFileTree)) :
  fileTree _ h = None ->
  forallb (fun e => negb (isCompletion _ e)) events = true ->
  fileTree _ (fold_left (step _) events h) = None.
Proof.
  revert h. induction events as [|e events IH]; intros h Hnone Hall.
  - exact Hnone.
  - simpl in Hall. apply andb_prop in Hall as [He Hrest].
    simpl. apply IH; [|exact Hrest].
    destruct e; simpl in *; try exact Hnone. discriminate He.
Qed.

(** C10.  As long as no rebuild has completed since the constructor ran,
    [resolveFile] returns [undefined] for every path and does not throw,
    whatever the tree's own resolver would do. *)
Theorem resolveFile_before_first_rebuild
    (options : HostTreeOptions) (events : list (Event LocalFileTree))
    (pathParts : list string) :
  forallb (fun e => negb (isCompletion _ e)) events = true ->
  resolveFile _ _ treeResolveFile (after _ minimatch options events) pathParts
  = Returned Undefined.
Proof.
  intros Hall. unfold resolveFile, after.
  rewrite fileTree_unassigned_until_completion; [reflexivity|reflexivity|exact Hall].
Qed.

(** Once a rebuild has completed the tree's resolver is asked. *)
Lemma resolveFile_after_rebuild
    (options : HostTreeOptions) (tree : LocalFileTree) (pathParts : list string) :
  resolveFile _ _ treeResolveFile
    (after _ minimatch options [RebuildBegins _; RebuildCompletes _ tree]) pathParts
  = treeResolveFile tree pathParts.
Proof. reflexivity. Qed.
End HostTreeFacts.

Lemma resolveFile_before_first_rebuild_witness :
  Host.resolveFile unit unit (fun _ _ => Js.Threw Js.TypeError)
    (Host.after unit (fun _ _ => false)
       {| Host.optRoot := "/srv/media"; Host.optName := "node";
          Host.pattern2FileType := [("**/*.mp4", "video/mp4")];
          Host.ignorePattern := [] |}
       [Host.Start unit; Host.RebuildBegins unit; Host.Resolves unit ["a"];
        Host.RebuildFails unit])
    ["a"; "b.mp4"]
  = Js.Returned Js.Undefined.
Proof.
  apply (resolveFile_before_first_rebuild (fun _ _ => Js.Threw Js.TypeError)).
  reflexivity.
Defined.

(** ** The sub-node filter *)

Lemma includes_In (arr : list string) (x : string) :
  Js.includes arr x = true <-> In x arr.
Proof.
  unfold Js.includes. rewrite existsb_exists. split.
  - intros [y [Hin Heq]]. apply String.eqb_eq in Heq. subst y. exact Hin.
  - intros Hin. exists x. split; [exact Hin|apply String.eqb_refl].
Qed.

Lemma truthy_nonempty (t : string) : t <> EmptyString -> Js.truthy (Some t) = true.
Proof. destruct t; [congruence|reflexivity]. Qed.

(** C8.  For a file entry (one that declares a non-empty ["*type"]) the
    sub-node filter of either revision keeps the entry exactly when its tag
    is among the values of the configured [fileType] table: a tag outside
    the table is dropped, a tag inside it is kept. *)
Theorem subNodeFilter_keeps_exactly_configured_types
    (config : Server.AppConfig) (early : ServerLegacy.AppConfig)
    (file : Http.File) (t : string) :
  Http.starType file = Some t ->
  t <> EmptyString ->
  (Server.subNodeFilter config file = true
     <-> In t (map snd (Server.fileType config))) /\
  (ServerLegacy.subNodeFilter early file = true
     <-> In t (map snd (ServerLegacy.fileType early))).
Proof.
  intros Htype Hne. unfold Server.subNodeFilter, ServerLegacy.subNodeFilter.
  rewrite Htype, (truthy_nonempty t Hne). simpl.
  split; apply includes_In.
Qed.

Lemma subNodeFilter_keeps_exactly_configured_types_witness :
  let types := [("video/mp4", "video"); ("image/png", "image")] in
  let config := {| Server.passcode := None; Server.cacheMaxAge := 0;
                   Server.fileType := types |} in
  let early := {| ServerLegacy.cacheMaxAge := 0; ServerLegacy.fileType := types |} in
  let kept := {| Http.starType := Some "video"; Http.size := Some 7 |} in
  let dropped := {| Http.starType := Some "text"; Http.size := Some 7 |} in
  Server.subNodeFilter config kept = true /\
  ServerLegacy.subNodeFilter early kept = true /\
  Server.subNodeFilter config dropped <> true /\
  ServerLegacy.subNodeFilter early dropped <> true.
Proof.
  intros types config early kept dropped.
  assert (Hne : forall a s, String a s <> EmptyString) by (intros; discriminate).
  pose proof (subNodeFilter_keeps_exactly_configured_types config early kept
                "video" eq_refl (Hne _ _)) as [Hk1 Hk2].
  pose proof (subNodeFilter_keeps_exactly_configured_types config early dropped
                "text" eq_refl (Hne _ _)) as [Hd1 Hd2].
  assert (Hin : In "video" (map snd types)) by (simpl; auto).
  assert (Hout : ~ In "text" (map snd types)).
  { simpl. intros [H|[H|[]]]; discriminate H. }
  split; [|split; [|split]].
  - exact (proj2 Hk1 Hin).
  - exact (proj2 Hk2 Hin).
  - intros H. exact (Hout (proj1 Hd1 H)).
  - intros H. exact (Hout (proj1 Hd2 H)).
Defined.

(** ** The bubble hook *)

Section BubbleFacts.
Import Js Netx.
Context {Data : Type}.

Lemma startsWith_bubble (id : string) :
  startsWith (String.append "[bubble]" id) "[bubble]" = true.
Proof. unfold startsWith. simpl. destruct id; reflexivity. Qed.

Lemma removePrefix_bubble (id : string) :
  removePrefix (String.append "[bubble]" id) "[bubble]" = id.
Proof. unfold removePrefix. rewrite startsWith_bubble. reflexivity. Qed.

Lemma includes_false (arr : list string) (x : string) :
  ~ In x arr -> includes arr x = false.
Proof.
  intros Hnot. destruct (includes arr x) eqn:E; [|reflexivity].
  apply includes_In in E. contradiction.
Qed.

(** A message whose header already names the node is dropped by the
    hook: nothing is sent and the handler is not called. *)
Lemma bubbleHook_discards_visited
    (this : NetId) (nodeId : string) (handler : HandlerId)
    (m : Message Data) (nodeIds : list string) :
  header _ m = Some nodeIds ->
  In nodeId nodeIds ->
  bubbleHook _ this nodeId handler m = Returned [].
Proof.
  intros Hh Hin. unfold bubbleHook.
  destruct (negb (MessageType_eqb (type _ m) object)); [reflexivity|].
  destruct (negb (startsWith (id _ m) "[bubble]")); [reflexivity|].
  rewrite Hh. apply includes_In in Hin. rewrite Hin. reflexivity.
Qed.

(** The same for a connection on which the node registered any number of
    bubble handlers under its name. *)
Lemma dispatch_discards_visited
    (this : NetId) (nodeId : string) (handlers : list HandlerId)
    (m : Message Data) (nodeIds : list string) :
  header _ m = Some nodeIds ->
  In nodeId nodeIds ->
  dispatch _
    (fold_left (fun n h => addBubbleHook _ n nodeId h) handlers
               {| self := this; readHooks := [] |}) m
  = Returned [].
Proof.
  intros Hh Hin. unfold dispatch.
  assert (Hgen : forall hs (n : Net Data),
    self _ n = this ->
    runHooks _ (readHooks _ n) m = Returned [] ->
    runHooks _ (readHooks _
      (fold_left (fun n h => addBubbleHook _ n nodeId h) hs n)) m = Returned []).
  { induction hs as [|h hs IH]; intros n Hself Hrun; [exact Hrun|].
    simpl. apply IH; [exact Hself|].
    unfold addBubbleHook, addReadHook. simpl. rewrite Hself.
    revert Hrun. generalize (readHooks _ n) as hooks.
    induction hooks as [|k hooks IHk]; simpl; intros Hrun.
    - rewrite (bubbleHook_discards_visited _ _ _ _ _ Hh Hin). reflexivity.
    - destruct (k m) as [e1|]; simpl in *; [|discriminate Hrun].
      destruct (runHooks Data hooks m) as [e2|] eqn:E2; simpl in *; [|discriminate Hrun].
      injection Hrun as Hnil. apply app_eq_nil in Hnil as [-> ->].
      rewrite (IHk eq_refl). reflexivity. }
  apply Hgen; reflexivity.
Qed.

Lemma run_quiescent (nw : Network Data) (fuel : nat) (s : State Data) :
  inflight _ s = [] -> run _ nw fuel s = s.
Proof.
  intros Hq. induction fuel as [|k IH]; [reflexivity|].
  simpl. unfold step at 1. rewrite Hq. exact IH.
Qed.

Lemma two_node_cycle (nameA nameB id : string) (data : Data) (fuel : nat) :
  nameA <> nameB ->
  run _ (twoNodes _ nameA nameB) (S (S fuel)) (cycleStart _ nameA nameB id data)
  = {| inflight := []; invoked := [(1%nat, id, data)]; fault := false |}.
Proof.
  intros Hne.
  assert (HBA : String.eqb nameB nameA = false).
  { apply String.eqb_neq. congruence. }
  change (run _ (twoNodes _ nameA nameB) (S (S fuel)) (cycleStart _ nameA nameB id data))
    with (run _ (twoNodes _ nameA nameB) fuel
            (step _ (twoNodes _ nameA nameB)
               (step _ (twoNodes _ nameA nameB) (cycleStart _ nameA nameB id data)))).
  assert (H1 : step _ (twoNodes _ nameA nameB) (cycleStart _ nameA nameB id data)
    = {| inflight :=
           [(0%nat, {| type := object; id := String.append "[bubble]" id;
                       data := data; header := Some [nameA; nameB] |})];
         invoked := [(1%nat, id, data)]; fault := false |}).
  { unfold step, cycleStart, sendBubble, perform, dispatch. cbn [fold_left deliver inflight
      invoked fault idle app twoNodes peer nets findNet find netA netB addBubbleHook
      addReadHook self readHooks Nat.eqb runHooks bind].
    unfold bubbleHook. cbn [Netx.type Netx.id Netx.header Netx.data MessageType_eqb negb].
    rewrite startsWith_bubble, removePrefix_bubble.
    cbn [negb includes existsb]. rewrite HBA. reflexivity. }
  rewrite H1.
  assert (H2 : step _ (twoNodes _ nameA nameB)
      {| inflight :=
           [(0%nat, {| type := object; id := String.append "[bubble]" id;
                       data := data; header := Some [nameA; nameB] |})];
         invoked := [(1%nat, id, data)]; fault := false |}
    = {| inflight := []; invoked := [(1%nat, id, data)]; fault := false |}).
  { unfold step, dispatch. cbn [inflight invoked fault twoNodes peer nets findNet find
      netA netB addBubbleHook addReadHook self readHooks Nat.eqb runHooks bind app].
    rewrite (bubbleHook_discards_visited 0%nat nameA 0%nat
               {| type := object; id := String.append "[bubble]" id;
                  data := data; header := Some [nameA; nameB] |}
               [nameA; nameB] eq_refl);
      [reflexivity|left; reflexivity]. }
  rewrite H2. apply run_quiescent. reflexivity.
Qed.

(** C1.  A bubble message that reaches a node already named in its header
    is dropped: the hook sends nothing and calls no handler, and so does a
    connection on which the node registered several handlers.  So when A
    sends a bubble into the cycle A, B, A, the run comes to rest after
    two deliveries, B's handler has been called exactly once (with the
    id and data that A sent) and A's handler has not been called. *)
Theorem bubble_visited_discarded_and_cycle_ends
    (nameA nameB id : string) (data : Data) :
  nameA <> nameB ->
  (forall (this : NetId) (nodeId : string) (handler : HandlerId)
          (m : Message Data) (nodeIds : list string),
      header _ m = Some nodeIds -> In nodeId nodeIds ->
      bubbleHook _ this nodeId handler m = Returned []) /\
  (forall (this : NetId) (nodeId : string) (handlers : list HandlerId)
          (m : Message Data) (nodeIds : list string),
      header _ m = Some nodeIds -> In nodeId nodeIds ->
      dispatch _
        (fold_left (fun n h => addBubbleHook _ n nodeId h) handlers
                   {| self := this; readHooks := [] |}) m
      = Returned []) /\
  (forall fuel : nat, (2 <= fuel)%nat ->
      let final := run _ (twoNodes _ nameA nameB) fuel
                     (cycleStart _ nameA nameB id data) in
      quiescent _ final = true /\
      fault _ final = false /\
      invoked _ final = [(1%nat, id, data)] /\
      timesInvoked _ 1%nat final = 1%nat /\
      timesInvoked _ 0%nat final = 0%nat).
Proof.
  intros Hne. split; [|split].
  - intros this nodeId handler m nodeIds. apply bubbleHook_discards_visited.
  - intros this nodeId handlers m nodeIds. apply dispatch_discards_visited.
  - intros fuel Hfuel final. subst final.
    destruct fuel as [|[|fuel]]; [lia|lia|].
    rewrite (two_node_cycle nameA nameB id data fuel Hne).
    repeat split.
Qed.

(** C2, as the code has it.  A bubble message whose header does not name
    the node is sent once more over the connection it arrived on, with
    the node's name appended to the header, and then the handler is
    called with the id stripped of its marker.  The hook sends over no
    other connection. *)
Theorem bubbleHook_echoes_then_invokes
    (this : NetId) (nodeId : string) (handler : HandlerId)
    (m : Message Data) (nodeIds : list string) :
  type _ m = object ->
  startsWith (id _ m) "[bubble]" = true ->
  header _ m = Some nodeIds ->
  ~ In nodeId nodeIds ->
  bubbleHook _ this nodeId handler m
  = Returned [ Send this (id _ m) (data _ m) (nodeIds ++ [nodeId]);
               Invoke handler (removePrefix (id _ m) "[bubble]") (data _ m) ].
Proof.
  intros Ht Hp Hh Hnot. unfold bubbleHook.
  rewrite Ht, Hp, Hh, (includes_false _ _ Hnot). reflexivity.
Qed.
End BubbleFacts.

Lemma bubble_visited_discarded_and_cycle_ends_witness :
  Netx.bubbleHook unit 0%nat "A" 0%nat
    {| Netx.type := Netx.object; Netx.id := "[bubble]ping"; Netx.data := tt;
       Netx.header := Some ["A"; "B"] |} = Js.Returned [] /\
  Netx.invoked unit
    (Netx.run unit (Netx.twoNodes unit "A" "B") 5 (Netx.cycleStart unit "A" "B" "ping" tt))
  = [(1%nat, "ping", tt)].
Proof.
  assert (Hne : "A" <> "B") by discriminate.
  destruct (bubble_visited_discarded_and_cycle_ends "A" "B" "ping" tt Hne)
    as (Hdrop & _ & Hrun).
  split.
  - apply (Hdrop _ _ _ _ ["A"; "B"]); [reflexivity|left; reflexivity].
  - assert (Hfuel : (2 <= 5)%nat) by lia.
    exact (proj1 (proj2 (proj2 (Hrun 5%nat Hfuel)))).
Defined.

Lemma bubbleHook_echoes_then_invokes_witness :
  Netx.bubbleHook unit 3%nat "N" 7%nat
    {| Netx.type := Netx.object; Netx.id := "[bubble]ping"; Netx.data := tt;
       Netx.header := Some ["A"] |}
  = Js.Returned [ Netx.Send 3%nat "[bubble]ping" tt ["A"; "N"];
                  Netx.Invoke 7%nat "ping" tt ].
Proof.
  apply (bubbleHook_echoes_then_invokes 3%nat "N" 7%nat
           {| Netx.type := Netx.object; Netx.id := "[bubble]ping"; Netx.data := tt;
              Netx.header := Some ["A"] |} ["A"]); try reflexivity.
  intros [H|[]]. discriminate H.
Defined.

(** C2, as stated, fails.  A node N holds connections 0 and 1 and a bubble
    arrives on connection 0: the code answers on connection 0 and sends
    nothing on connection 1, and it sends before it calls the handler; the
    specification's algorithm calls the handler first and forwards on
    connection 1 only. *)
Lemma bubble_forwarding_differs_from_spec :
  let m := {| Netx.type := Netx.object; Netx.id := "[bubble]ping"; Netx.data := tt;
              Netx.header := Some ["A"] |} in
  let net0 := Netx.addBubbleHook unit {| Netx.self := 0%nat; Netx.readHooks := [] |}
                "N" 7%nat in
  Netx.dispatch unit net0 m
    = Js.Returned [ Netx.Send 0%nat "[bubble]ping" tt ["A"; "N"];
                    Netx.Invoke 7%nat "ping" tt ] /\
  Netx.forwardPerSpec unit [0%nat; 1%nat] 0%nat "N" 7%nat m
    = [ Netx.Invoke 7%nat "ping" tt;
        Netx.Send 1%nat "[bubble]ping" tt ["A"; "N"] ] /\
  Netx.dispatch unit net0 m
    <> Js.Returned (Netx.forwardPerSpec unit [0%nat; 1%nat] 0%nat "N" 7%nat m).
Proof.
  cbv zeta. split; [reflexivity|]. split; [reflexivity|].
  intros H. discriminate H.
Qed.

(** ** The batch string encoder *)

Section CodecFacts.
Import Js Codec.
Variable encode : jsstring -> list Z.
Variable ensureCapacity : BufferWriter -> nat -> BufferWriter.

Lemma writeAt_split (pre rest bs : list Z) :
  (length bs <= length rest)%nat ->
  writeAt (pre ++ rest) (length pre) bs = pre ++ bs ++ drop (length bs) rest.
Proof.
  intros _. unfold writeAt. rewrite take_app_length, drop_app_add. reflexivity.
Qed.

Lemma fold_record (values : list jsstring) (acc : list (jsstring * nat)) (n : nat) :
  fold_left (record encode) values (acc, n)
  = (acc ++ map (fun v => (v, byteLength encode v)) values,
     (n + length (concat (map encode values)))%nat).
Proof.
  revert acc n. induction values as [|v values IH]; intros acc n; simpl.
  - rewrite app_nil_r, Nat.add_0_r. reflexivity.
  - unfold record at 2. simpl. rewrite IH, <- app_assoc, length_app.
    unfold byteLength. simpl. f_equal. lia.
Qed.

Lemma fold_writeOne (values : list jsstring) (pre rest : list Z) :
  (length (concat (map encode values)) <= length rest)%nat ->
  fold_left (writeOne encode) (map (fun v => (v, byteLength encode v)) values)
    {| backend := pre ++ rest; cursor := length pre |}
  = {| backend := pre ++ concat (map encode values)
                      ++ drop (length (concat (map encode values))) rest;
       cursor := (length pre + length (concat (map encode values)))%nat |}.
Proof.
  revert pre rest. induction values as [|v values IH]; intros pre rest Hfit; simpl.
  - rewrite Nat.add_0_r. reflexivity.
  - simpl in Hfit. rewrite length_app in Hfit.
    unfold writeOne at 2. simpl. unfold write, byteLength.
    rewrite length_app, Nat.add_sub', Nat.min_l by lia.
    rewrite take_ge by lia. rewrite writeAt_split by lia.
    replace (length pre + length (encode v))%nat with (length (pre ++ encode v))
      by apply length_app.
    rewrite (app_assoc pre (encode v)).
    rewrite IH by (rewrite length_drop; lia).
    rewrite drop_drop, !length_app, <- !app_assoc. f_equal. lia.
Qed.

Lemma int32BE_value (v : Z) :
  0 <= v < 2 ^ 31 ->
  match int32BE (v mod 2 ^ 32) with
  | [b0; b1; b2; b3] => b0 * 2 ^ 24 + b1 * 2 ^ 16 + b2 * 2 ^ 8 + b3 = v
  | _ => False
  end.
Proof.
  intros Hv. rewrite Z.mod_small by lia. unfold int32BE.
  change 255 with (Z.ones 8). rewrite !Z.land_ones, !Z.shiftr_div_pow2 by lia.
  change (2 ^ 8) with 256. change (2 ^ 16) with 65536.
  change (2 ^ 24) with 16777216. change (2 ^ 31) with 2147483648 in Hv.
  Z.div_mod_to_equations. lia.
Qed.

Lemma readInt32BE_int32BE (pre rest : list Z) (v : Z) :
  0 <= v < 2 ^ 31 ->
  readInt32BE (pre ++ int32BE (v mod 2 ^ 32) ++ rest) (length pre) = Some v.
Proof.
  intros Hv. unfold readInt32BE. rewrite drop_app_length.
  pose proof (int32BE_value v Hv) as Hval.
  destruct (int32BE (v mod 2 ^ 32)) as [|b0 [|b1 [|b2 [|b3 [|]]]]]; try contradiction.
  simpl. rewrite Hval.
  destruct (Z.ltb_spec v (2 ^ 31)); [reflexivity|lia].
Qed.

Hypothesis ensure_ok : ensuresCapacity ensureCapacity.

(** C3, as the code has it.  [strings] writes one 4-byte big-endian prefix
    that holds the total byte length of all the values, followed by their
    bytes run together; the bytes before the cursor are untouched.  A
    reader gets back the concatenation of the bytes, not the individual
    strings. *)
Theorem strings_writes_one_prefix_for_the_concatenation
    (w : BufferWriter) (values : list jsstring) :
  let payload := concat (map encode values) in
  (cursor w <= length (backend w))%nat ->
  Z.of_nat (length payload) <= 2 ^ 31 - 1 ->
  exists w' : BufferWriter,
    strings encode ensureCapacity w values = Returned w' /\
    cursor w' = (cursor w + 4 + length payload)%nat /\
    (cursor w' <= length (backend w'))%nat /\
    take (cursor w) (backend w') = take (cursor w) (backend w) /\
    written (cursor w) w' = int32BE (Z.of_nat (length payload)) ++ payload /\
    readString (backend w') (cursor w) = Some (payload, cursor w').
Proof.
  intros payload Hinside Hsmall.
  assert (Hv : 0 <= Z.of_nat (length payload) < 2 ^ 31) by lia.
  unfold strings. rewrite fold_record. cbn [fst snd app Nat.add].
  fold payload.
  destruct (ensure_ok w (length payload + 4)%nat Hinside) as (Hcur & Hcap & Hpre).
  set (w1 := ensureCapacity w (length payload + 4)%nat) in *.
  set (pre := take (cursor w) (backend w1)).
  set (rest := drop (cursor w) (backend w1)).
  assert (Hsplit : backend w1 = pre ++ rest) by (symmetry; apply take_drop).
  assert (Hlpre : length pre = cursor w) by (apply length_take_le; lia).
  assert (Hlrest : (length payload + 4 <= length rest)%nat).
  { unfold rest. rewrite length_drop. lia. }
  unfold writeInt32BE.
  replace ((Z.of_nat (length payload) <? - 2 ^ 31)
           || (2 ^ 31 - 1 <? Z.of_nat (length payload))) with false
    by (symmetry; apply orb_false_iff; split; apply Z.ltb_ge; lia).
  replace (length (backend w1) <? cursor w1 + 4)%nat with false
    by (symmetry; apply Nat.ltb_ge; lia).
  cbn [bind]. rewrite Hcur, Hsplit, <- Hlpre.
  set (hdr := int32BE (Z.of_nat (length payload) mod 2 ^ 32)).
  assert (Hlhdr : length hdr = 4%nat) by reflexivity.
  rewrite writeAt_split by (rewrite Hlhdr; lia).
  replace (length pre + 4)%nat with (length (pre ++ hdr))
    by (rewrite length_app, Hlhdr; reflexivity).
  rewrite (app_assoc pre hdr).
  rewrite fold_writeOne by (rewrite length_drop, Hlhdr; fold payload; lia).
  fold payload. eexists. split; [reflexivity|]. cbn [cursor backend].
  rewrite length_app, Hlhdr.
  split; [lia|]. split.
  { rewrite !length_app, !length_drop, Hlhdr. lia. }
  split.
  { rewrite <- app_assoc, take_app_length, Hlpre. exact Hpre. }
  split.
  { unfold written. cbn [cursor backend].
    rewrite <- app_assoc, drop_app_length.
    replace (length pre + 4 + length payload - length pre)%nat
      with (length (hdr ++ payload)) by (rewrite length_app, Hlhdr; lia).
    rewrite app_assoc, take_app_length.
    unfold hdr. rewrite Z.mod_small by lia. reflexivity. }
  unfold readString. rewrite <- app_assoc.
  unfold hdr at 1. rewrite readInt32BE_int32BE by exact Hv.
  destruct (Z.ltb_spec (Z.of_nat (length payload)) 0); [lia|].
  rewrite Nat2Z.id.
  match goal with |- context [(length ?b <? ?n)%nat] =>
    replace (length b <? n)%nat with false
  end.
  2:{ symmetry. apply Nat.ltb_ge. rewrite !length_app, length_drop, Hlhdr. lia. }
  f_equal. f_equal.
  replace (length pre + 4)%nat with (length (pre ++ hdr))
    by (rewrite length_app, Hlhdr; reflexivity).
  rewrite (app_assoc pre hdr), drop_app_length, take_app_length. reflexivity.
Qed.
End CodecFacts.

Lemma growExact_ensuresCapacity : Codec.ensuresCapacity Codec.growExact.
Proof.
  intros w n Hinside. unfold Codec.growExact. simpl.
  split; [reflexivity|]. split.
  - rewrite length_app, repeat_length. lia.
  - apply take_app_le. exact Hinside.
Qed.

(** A total length that is no int32 makes [writeInt32BE] throw, and so
    [strings]. *)
Lemma writeInt32BE_rejects_large (buf : list Z) (value : Z) (offset : nat) :
  2 ^ 31 - 1 < value ->
  Codec.writeInt32BE buf value offset = Js.Threw Js.RangeError.
Proof.
  intros Hbig. unfold Codec.writeInt32BE.
  destruct (Z.ltb_spec value (- 2 ^ 31)); [reflexivity|].
  destruct (Z.ltb_spec (2 ^ 31 - 1) value); [reflexivity|lia].
Qed.

Lemma strings_writes_one_prefix_for_the_concatenation_witness :
  let start := {| Codec.backend := [9; 9]; Codec.cursor := 2 |} in
  exists w' : Codec.BufferWriter,
    Codec.strings Codec.utf8 Codec.growExact start [Codec.ofAscii "ab"; Codec.ofAscii "c"]
      = Js.Returned w' /\
    Codec.backend w' = [9; 9; 0; 0; 0; 3; 97; 98; 99] /\
    Codec.readString (Codec.backend w') 2 = Some ([97; 98; 99], 9%nat).
Proof.
  intros start.
  assert (Hinside : (Codec.cursor start <= length (Codec.backend start))%nat)
    by (simpl; lia).
  assert (Hsmall :
    Z.of_nat (length (concat (map Codec.utf8 [Codec.ofAscii "ab"; Codec.ofAscii "c"])))
    <= 2 ^ 31 - 1) by (vm_compute; discriminate).
  destruct (strings_writes_one_prefix_for_the_concatenation Codec.utf8 Codec.growExact
              growExact_ensuresCapacity start [Codec.ofAscii "ab"; Codec.ofAscii "c"]
              Hinside Hsmall) as (w' & Hrun & _ & _ & _ & _ & Hread).
  exists w'. split; [exact Hrun|].
  vm_compute in Hrun. injection Hrun as <-.
  split; [reflexivity|]. exact Hread.
Defined.

(** C3, as stated, fails.  Two different sequences of strings give the same
    frame, so no reader can return the individual strings; and the frame is
    not the one in which every string has its own length prefix. *)
Lemma strings_frame_does_not_split :
  let one := [Codec.ofAscii "ab"; Codec.ofAscii "c"] in
  let other := [Codec.ofAscii "a"; Codec.ofAscii "bc"] in
  one <> other /\
  Codec.frame one = Js.Returned [0; 0; 0; 3; 97; 98; 99] /\
  Codec.frame other = Js.Returned [0; 0; 0; 3; 97; 98; 99] /\
  Codec.stringsPerSpec Codec.utf8 one = [0; 0; 0; 2; 97; 98; 0; 0; 0; 1; 99] /\
  ~ (exists decode : list Z -> list Codec.jsstring,
       forall values frame, Codec.frame values = Js.Returned frame ->
                            decode frame = values).
Proof.
  cbv zeta. split; [discriminate|].
  split; [vm_compute; reflexivity|].
  split; [vm_compute; reflexivity|].
  split; [vm_compute; reflexivity|].
  intros [decode Hdec].
  assert (H1 := Hdec [Codec.ofAscii "ab"; Codec.ofAscii "c"] [0; 0; 0; 3; 97; 98; 99]
                  ltac:(vm_compute; reflexivity)).
  assert (H2 := Hdec [Codec.ofAscii "a"; Codec.ofAscii "bc"] [0; 0; 0; 3; 97; 98; 99]
                  ltac:(vm_compute; reflexivity)).
  rewrite H1 in H2. discriminate H2.
Qed.

(** ** The file route *)

Section RouteFacts.
Import Js Http.

Lemma headers_pipe (s : Readable) (res : Response) :
  headers (pipe s res) = headers res.
Proof. unfold pipe. destruct (fails s); [destruct (chunks s)|]; reflexivity. Qed.



Lemma statusCode_pipe (s : Readable) (res : Response) :
  statusCode (pipe s res)
  = if fails s && bool_decide (chunks s = []) then 500 else statusCode res.
Proof.
  unfold pipe. destruct (fails s); [|reflexivity].
  destruct (chunks s); reflexivity.
Qed.



Lemma resolveRange_absent : resolveRange None = {| start := None; end_ := None |}.
Proof. reflexivity. Qed.

(** The walk through the entries of a directory, as [resolve] does it. *)
Lemma resolve_directory_first_match
    (sameName : string -> string -> bool)
    (before after : list (string * FileTreeEntry)) (name : string)
    (child : FileTreeEntry) (seg : string) (rest : list string) :
  (forall n c, In (n, c) before -> sameName n seg = false) ->
  sameName name seg = true ->
  resolve sameName (Directory (before ++ (name, child) :: after)) (seg :: rest)
  = resolve sameName child rest.
Proof.
  intros Hbefore Hname. simpl.
  induction before as [|[n c] before IH]; simpl.
  - rewrite Hname. reflexivity.
  - rewrite (Hbefore n c) by (left; reflexivity).
    apply IH. intros n' c' Hin. apply (Hbefore n' c'). right. exact Hin.
Qed.

Lemma resolve_directory_no_match
    (sameName : string -> string -> bool)
    (children : list (string * FileTreeEntry)) (seg : string) (rest : list string) :
  (forall n c, In (n, c) children -> sameName n seg = false) ->
  resolve sameName (Directory children) (seg :: rest) = None.
Proof.
  intros Hnone. simpl.
  induction children as [|[n c] children IH]; simpl; [reflexivity|].
  rewrite (Hnone n c) by (left; reflexivity).
  apply IH. intros n' c' Hin. apply (Hnone n' c'). right. exact Hin.
Qed.

(** A path that fails in one of the ways of the specification is not
    found by the resolver. *)
Lemma resolve_unmatched
    (sameName : string -> string -> bool) (tree : FileTreeEntry)
    (segments : list string) :
  Unmatched sameName tree segments -> resolve sameName tree segments = None.
Proof.
  induction 1 as [children|t s o seg rest|children seg rest Hnone
                  |before name child after seg rest Hbefore Hname Hbelow IH].
  - reflexivity.
  - reflexivity.
  - apply resolve_directory_no_match. exact Hnone.
  - rewrite resolve_directory_first_match by assumption. exact IH.
Qed.

Lemma resolveFile_unmatched
    (sameName : string -> string -> bool) (tree : FileTreeEntry)
    (segments : list string) :
  Unmatched sameName tree segments -> resolveFile sameName tree segments = Null.
Proof.
  intros Hun. unfold resolveFile. rewrite (resolve_unmatched _ _ _ Hun). reflexivity.
Qed.

(** The guard of the plugin-era handler, for any resolver: an answer that
    is [null], [undefined] or carries no ["*type"] ends in 404 before any
    plugin or stream is asked. *)
Lemma fileHandler_404_without_type
    (config : Server.AppConfig) (decodeURI : string -> option string) (now : Z)
    (nodeResolveFile : list string -> nullable ResolvedFile)
    (plugins : list Server.MeditreePlugin) (createReadStream : CreateReadStream)
    (req : Server.Request) (res : Response) (uri : string) :
  decodeURI (Server.url req) = Some uri ->
  truthy (innerType
            (nodeResolveFile (split (removeSuffix (removePrefix uri "/file/") "/") "/")))
    = false ->
  Server.fileHandler config decodeURI now nodeResolveFile plugins createReadStream req res
  = done_ (finish (status res 404)) [].
Proof.
  intros Huri Hfalsy. unfold Server.fileHandler. rewrite Huri, Hfalsy. reflexivity.
Qed.

(** C7.  When the requested path fails to resolve (a segment matches no
    entry, or the path ends on a Directory), the resolver signals
    not-found and the route answers 404 with an empty body: the status is
    not 500, the handler is not rejected with an error, and no stream is
    asked for.  This holds for the plugin-era route once the passcode gate
    lets the request through, and for the handler of the early revision.
    Whatever the gate and the decoding of the URI do, the plugin-era route
    answers such a request with 404, 401 or 400, never with bytes. *)
Theorem unresolved_path_answers_404
    (sameName : string -> string -> bool) (tree : FileTreeEntry)
    (decodeURI : string -> option string) (uri : string)
    (plugins : list Server.MeditreePlugin) (createReadStream : CreateReadStream) :
  (forall (config : Server.AppConfig) (now : Z) (req : Server.Request),
      Server.passcodeHandler config decodeURI req freshResponse = None ->
      decodeURI (Server.url req) = Some uri ->
      Unmatched sameName tree
        (split (removeSuffix (removePrefix uri "/file/") "/") "/") ->
      let o := Server.fileRoute config decodeURI now (resolveFile sameName tree)
                 plugins createReadStream req in
      resolveFile sameName tree
        (split (removeSuffix (removePrefix uri "/file/") "/") "/") = Null /\
      statusCode (response o) = 404 /\
      statusCode (response o) <> 500 /\
      body (response o) = NoBody /\
      ended (response o) = true /\
      requested o = [] /\
      rejected o = None) /\
  (forall (config : ServerLegacy.AppConfig) (req : ServerLegacy.Request) (res : Response),
      decodeURI (ServerLegacy.url req) = Some uri ->
      Unmatched sameName tree (split (removePrefix uri "/file/") "/") ->
      let o := ServerLegacy.fileHandler config decodeURI (resolveFile sameName tree)
                 createReadStream req res in
      resolveFile sameName tree (split (removePrefix uri "/file/") "/") = Null /\
      statusCode (response o) = 404 /\
      statusCode (response o) <> 500 /\
      body (response o) = body res /\
      ended (response o) = true /\
      requested o = [] /\
      rejected o = None) /\
  (forall (config : Server.AppConfig) (now : Z) (req : Server.Request),
      (forall uri', decodeURI (Server.url req) = Some uri' ->
         Unmatched sameName tree
           (split (removeSuffix (removePrefix uri' "/file/") "/") "/")) ->
      let o := Server.fileRoute config decodeURI now (resolveFile sameName tree)
                 plugins createReadStream req in
      (statusCode (response o) = 404 \/ statusCode (response o) = 401 \/
       statusCode (response o) = 400) /\
      (forall bs, body (response o) <> Bytes bs) /\
      ended (response o) = true /\
      requested o = [] /\
      rejected o = None).
Proof.
  split; [|split].
  - intros config now req Hgate Huri Hun o.
    pose proof (resolveFile_unmatched _ _ _ Hun) as Hnull.
    assert (Ho : o = done_ (finish (status freshResponse 404)) []).
    { unfold o, Server.fileRoute. rewrite Hgate.
      apply (fileHandler_404_without_type _ _ _ _ _ _ _ _ uri Huri).
      rewrite Hnull. reflexivity. }
    rewrite Ho. simpl. repeat split; [exact Hnull|discriminate].
  - intros config req res Huri Hun o.
    pose proof (resolveFile_unmatched _ _ _ Hun) as Hnull.
    assert (Ho : o = done_ (finish (status res 404)) []).
    { unfold o, ServerLegacy.fileHandler. rewrite Huri, Hnull. reflexivity. }
    rewrite Ho. simpl. repeat split; [exact Hnull|discriminate].
  - intros config now req Hun o. unfold o, Server.fileRoute.
    destruct (Server.passcodeHandler config decodeURI req freshResponse) as [res|] eqn:Hgate.
    + unfold Server.passcodeHandler in Hgate.
      destruct (negb (truthy (Server.passcode config))); [discriminate Hgate|].
      destruct (decodeURI (nullish (Server.queryPasscode req) "undefined")) as [given|].
      * destruct (negb (String.eqb given _)); [|discriminate Hgate].
        injection Hgate as <-. simpl.
        split; [right; left; reflexivity|]. repeat split. intros bs H. discriminate H.
      * injection Hgate as <-. simpl.
        split; [right; right; reflexivity|]. repeat split. intros bs H. discriminate H.
    + destruct (decodeURI (Server.url req)) as [uri'|] eqn:Huri.
      * pose proof (resolveFile_unmatched _ _ _ (Hun uri' eq_refl)) as Hnull.
        rewrite (fileHandler_404_without_type _ _ _ _ _ _ _ _ uri' Huri)
          by (rewrite Hnull; reflexivity).
        simpl. split; [left; reflexivity|]. repeat split. intros bs H. discriminate H.
      * unfold Server.fileHandler. rewrite Huri. simpl.
        split; [right; right; reflexivity|]. repeat split. intros bs H. discriminate H.
Qed.
End RouteFacts.

Lemma unresolved_path_answers_404_witness :
  let tree :=
    Http.Directory
      [("a.txt", Http.FileEntry "text/plain" 11 (Http.Local "/srv/a.txt"));
       ("C", Http.Directory
               [("video.mp4", Http.FileEntry "video/mp4" 1000 (Http.Remote "C"))])] in
  let config := {| Server.passcode := None; Server.cacheMaxAge := 3600;
                   Server.fileType := [("video/mp4", "video")] |} in
  let req := {| Server.url := "/file/C/"; Server.queryPasscode := None;
                Server.range := None |} in
  Http.statusCode
    (Http.response
       (Server.fileRoute config Some 0 (Http.resolveFile String.eqb tree) []
          (Http.localCreateReadStream []) req)) = 404.
Proof.
  intros tree config req.
  destruct (unresolved_path_answers_404 String.eqb tree Some "/file/C/" []
              (Http.localCreateReadStream [])) as (Hroute & _ & _).
  refine (proj1 (proj2 (Hroute config 0 req eq_refl eq_refl _))).
  change (Http.Unmatched String.eqb tree ["C"]).
  apply (Http.fails_below String.eqb
           [("a.txt", Http.FileEntry "text/plain" 11 (Http.Local "/srv/a.txt"))]
           "C" _ [] "C" []).
  - intros n c [Heq|[]]. injection Heq as <- _. reflexivity.
  - reflexivity.
  - apply Http.ends_on_directory.
Defined.

(** ** [pipeFile] *)

Section PipeFileFacts.
Import Js Http.





Lemma pipeFile_content_length
    (plugins : list Server.MeditreePlugin) (createReadStream : CreateReadStream)
    (req : Server.Request) (res : Response) (file : ResolvedFile) :
  headers (response (Server.pipeFile plugins createReadStream req res file))
    !! "content-length"
  = Some (Number (Server.retrievedLength (Server.bounds req file))).
Proof.
  unfold Server.pipeFile.
  destruct (Server.askPlugins _ _ _ _ _) as [[[ | |s]|e] log];
    try destruct (createReadStream _ _) as [[ | |s]|e];
    cbn [response done_ piped headers finish status]; rewrite ?headers_pipe;
    destruct (truthy (Server.range req)); cbn [headers setHeader status];
    rewrite ?lookup_insert_ne by discriminate; apply lookup_insert_eq.
Qed.

Lemma pipeFile_content_range
    (plugins : list Server.MeditreePlugin) (createReadStream : CreateReadStream)
    (req : Server.Request) (res : Response) (file : ResolvedFile) :
  truthy (Server.range req) = true ->
  headers (response (Server.pipeFile plugins createReadStream req res file))
    !! "content-range"
  = Some (ContentRange (optStart (Server.bounds req file))
            (optEnd (Server.bounds req file)) (innerSize file)).
Proof.
  intros Hrange. unfold Server.pipeFile. rewrite Hrange.
  destruct (Server.askPlugins _ _ _ _ _) as [[[ | |s]|e] log];
    try destruct (createReadStream _ _) as [[ | |s]|e];
    cbn [response done_ piped headers finish status]; rewrite ?headers_pipe;
    cbn [headers setHeader status];
    rewrite ?lookup_insert_ne by discriminate; apply lookup_insert_eq.
Qed.



(** The early [pipeFile] answers 206 whenever the file has a size and a
    stream is opened that does not fail, with or without a Range header. *)
Lemma early_pipeFile_status
    (createReadStream : CreateReadStream) (req : ServerLegacy.Request)
    (res : Response) (file : ResolvedFile) (size : Z) (s : Readable) :
  innerSize file = Num size ->
  createReadStream file (Some (ServerLegacy.bounds req file)) = Returned (Ref s) ->
  fails s = false ->
  statusCode (response (ServerLegacy.pipeFile createReadStream req res file)) = 206.
Proof.
  intros Hsize Hopen Hok. unfold ServerLegacy.pipeFile. unfold innerSize in Hsize.
  destruct (Http.size (inner file)) as [sz|]; try discriminate Hsize.
  change (createReadStream file _)
    with (createReadStream file (Some (ServerLegacy.bounds req file))).
  rewrite Hopen. unfold ServerLegacy.respond. cbn [response done_ piped].
  rewrite statusCode_pipe, Hok.
  destruct (truthy (ServerLegacy.range req)); reflexivity.
Qed.
End PipeFileFacts.

Section StreamFacts.
Import Js Http.





End StreamFacts.


Section RangeFacts.
Import Js Http.

Lemma askPlugins_requested
    (plugins : list Server.MeditreePlugin) (file : ResolvedFile)
    (options : ReadOptions) (stream : nullable Readable)
    (log : list (option ReadOptions)) :
  Forall (eq (Some options)) log ->
  Forall (eq (Some options)) (snd (Server.askPlugins plugins file options stream log)).
Proof.
  revert stream log. induction plugins as [|p plugins IH]; intros stream log Hlog.
  - exact Hlog.
  - simpl. destruct stream; try exact Hlog.
    destruct (Server.onNodeCreateReadStream p) as [hook|]; [|apply IH; exact Hlog].
    assert (Hlog' : Forall (eq (Some options)) (log ++ [Some options])).
    { apply Forall_app. split; [exact Hlog|]. constructor; [reflexivity|constructor]. }
    destruct (hook file options); [apply IH|]; exact Hlog'.
Qed.

End RangeFacts.



(** C6 at the failing input.  A file of 11 bytes is asked for with no Range
    header.  The early [pipeFile] answers 206, although it sets no
    content-range; the plugin-era [pipeFile] answers 200 to the same
    request. *)
Theorem early_pipeFile_answers_206_without_range :
  let content := [104; 101; 108; 108; 111; 32; 119; 111; 114; 108; 100] in
  let file := {| Http.inner := {| Http.starType := Some "text/plain";
                                       Http.size := Some 11 |};
                 Http.fileType := Some "text/plain"; Http.fileSize := Some 11 |} in
  let early := ServerLegacy.pipeFile (Http.localCreateReadStream content)
                 {| ServerLegacy.url := "/file/a.txt"; ServerLegacy.range := None |}
                 Http.freshResponse file in
  let late := Server.pipeFile [] (Http.localCreateReadStream content)
                {| Server.url := "/file/a.txt"; Server.queryPasscode := None;
                   Server.range := None |}
                Http.freshResponse file in
  Http.statusCode (Http.response early) = 206 /\
  Http.body (Http.response early) = Http.Bytes content /\
  Http.headers (Http.response early) !! "content-range" = None /\
  Http.headers (Http.response early) !! "content-length" = Some (Http.Number (Js.Num 11)) /\
  Http.statusCode (Http.response late) = 200 /\
  Http.body (Http.response late) = Http.Bytes content.
Proof.
  cbv zeta. repeat split; vm_compute; reflexivity.
Qed.

(** ** Configuration *)

Section ConfigFacts.
Import Js Config.
Variable darwin : bool.
Variable freshPublicKey freshSecretKey : string.
Variable fromSecretKey : value -> completion string.
Variable uuid : string.

Lemma deref_alloc (h : Heap) (o : object) : deref (h ++ [o]) (length h) = o.
Proof. unfold deref. rewrite list_lookup_middle by reflexivity. reflexivity. Qed.

Lemma deref_older (h : Heap) (o : object) (r : ref) :
  (r < length h)%nat -> deref (h ++ [o]) r = deref h r.
Proof. intros Hr. unfold deref. rewrite lookup_app_l by exact Hr. reflexivity. Qed.

Lemma setProperty_alloc (h : Heap) (o : object) (key : string) (v : value) :
  setProperty (length h) key v (h ++ [o]) = h ++ [<[key := v]> o].
Proof.
  unfold setProperty.
  replace (length h) with (length h + 0)%nat at 1 by lia.
  rewrite alter_app_r. reflexivity.
Qed.

Lemma defaultConfig_has_no_keys :
  defaultConfig darwin !! "publicKey" = None /\
  defaultConfig darwin !! "privateKey" = None.
Proof. unfold defaultConfig. destruct darwin; split; reflexivity. Qed.

Lemma assign_lookup (target source : object) (key : string) :
  assign target source !! key
  = match source !! key with
    | Some v => Some v
    | None => target !! key
    end.
Proof.
  unfold assign. rewrite lookup_union.
  destruct (source !! key), (target !! key); reflexivity.
Qed.

(** [setupConfig] allocates one object, the copy, and touches no other. *)
Lemma setupConfig_frame (config : ref) (h : Heap) :
  exists copy : object,
    snd (setupConfig darwin freshPublicKey freshSecretKey fromSecretKey uuid config h)
    = h ++ [copy].
Proof.
  unfold setupConfig, alloc.
  set (o := assign (assign ∅ (deref h config)) (defaultConfig darwin)).
  cbv beta iota. rewrite !deref_alloc.
  destruct (truthyValue (o !! "privateKey"));
    destruct (negb (truthyValue (o !! "publicKey")));
    try destruct (fromSecretKey _) as [pk|e];
    cbv beta iota; rewrite ?setProperty_alloc, ?deref_alloc;
    try destruct (negb (truthyValue _));
    cbn [snd]; rewrite ?setProperty_alloc; eexists; reflexivity.
Qed.

(** What [setupConfig] returns for a configuration without keys: a copy
    that holds the generated pair. *)
Lemma setupConfig_generates_keys (config : ref) (h : Heap) :
  deref h config !! "publicKey" = None ->
  deref h config !! "privateKey" = None ->
  exists copy : object,
    setupConfig darwin freshPublicKey freshSecretKey fromSecretKey uuid config h
      = (Returned (length h), h ++ [copy]) /\
    copy !! "publicKey" = Some (Str freshPublicKey) /\
    copy !! "privateKey" = Some (Str freshSecretKey).
Proof.
  intros Hpub Hpriv. unfold setupConfig, alloc.
  set (o := assign (assign ∅ (deref h config)) (defaultConfig darwin)).
  destruct defaultConfig_has_no_keys as [Hdpub Hdpriv].
  assert (Hopub : o !! "publicKey" = None).
  { unfold o. rewrite !assign_lookup, Hdpub, Hpub. reflexivity. }
  assert (Hopriv : o !! "privateKey" = None).
  { unfold o. rewrite !assign_lookup, Hdpriv, Hpriv. reflexivity. }
  cbv beta iota. rewrite !deref_alloc, Hopub, Hopriv. cbn [truthyValue negb].
  cbv beta iota. rewrite !setProperty_alloc, deref_alloc.
  destruct (negb (truthyValue _)); rewrite ?setProperty_alloc;
    eexists; (split; [reflexivity|]);
    rewrite ?(lookup_insert_ne _ "name") by discriminate;
    rewrite ?(lookup_insert_ne _ "privateKey" "publicKey") by discriminate;
    split; apply lookup_insert_eq.
Qed.

(** [findConfig] on an existing file without keys: the object it returns,
    and writes back to the file, is the parsed file over the defaults; the
    keys are generated on the copy that [setupConfig] made, which
    [findConfig] drops. *)
Lemma findConfig_drops_the_prepared_copy
    (rootDir : Path) (filename : string) (w : World)
    (configFile : Path) (parsed : object) :
  findFsEntryInTree (files w) rootDir filename = Some configFile ->
  files w !! configFile = Some parsed ->
  parsed !! "publicKey" = None ->
  parsed !! "privateKey" = None ->
  exists (w' : World) (copy : object),
    findConfig darwin freshPublicKey freshSecretKey fromSecretKey uuid rootDir filename w
      = (Returned (length (heap w)), w') /\
    heap w' = heap w ++ [assign (assign ∅ (defaultConfig darwin)) parsed] ++ [copy] /\
    deref (heap w') (length (heap w)) !! "publicKey" = None /\
    deref (heap w') (length (heap w)) !! "privateKey" = None /\
    files w' !! configFile = Some (deref (heap w') (length (heap w))) /\
    copy !! "publicKey" = Some (Str freshPublicKey) /\
    copy !! "privateKey" = Some (Str freshSecretKey).
Proof.
  intros Hfind Hfile Hpub Hpriv. unfold findConfig. rewrite Hfind, Hfile.
  change (default ∅ (Some parsed)) with parsed. unfold alloc. cbv beta iota zeta.
  set (o := assign (assign ∅ (defaultConfig darwin)) parsed).
  destruct defaultConfig_has_no_keys as [Hdpub Hdpriv].
  assert (Hopub : o !! "publicKey" = None).
  { unfold o. rewrite !assign_lookup, Hpub, Hdpub. reflexivity. }
  assert (Hopriv : o !! "privateKey" = None).
  { unfold o. rewrite !assign_lookup, Hpriv, Hdpriv. reflexivity. }
  destruct (setupConfig_generates_keys (length (heap w)) (heap w ++ [o]))
    as (copy & Hsetup & Hcpub & Hcpriv).
  { rewrite deref_alloc. exact Hopub. }
  { rewrite deref_alloc. exact Hopriv. }
  rewrite Hsetup.
  assert (Hsame : deref ((heap w ++ [o]) ++ [copy]) (length (heap w)) = o).
  { rewrite deref_older by (rewrite length_app; simpl; lia). apply deref_alloc. }
  eexists. exists copy. split; [reflexivity|]. cbn [heap files].
  rewrite Hsame.
  split; [rewrite <- app_assoc; reflexivity|].
  split; [exact Hopub|]. split; [exact Hopriv|].
  split; [apply lookup_insert_eq|]. split; assumption.
Qed.

(** C9 at the failing input.  The directory /srv holds a configuration
    file with a name and no keys, and [findConfig] is started in
    /srv/media.  It returns the object read from the file over the
    defaults, with no [publicKey] and no [privateKey], and writes the same
    back to the file; the generated pair sits on the copy that
    [setupConfig] returned and [findConfig] did not keep. *)
Theorem findConfig_returns_config_without_keys :
  let configFile := ["medimesh.json"; "srv"] in
  let w := {| heap := [];
              files := {[ configFile := ({[ "name" := Str "node" ]} : object) ]} |} in
  exists (w' : World) (copy : object),
    findConfig darwin freshPublicKey freshSecretKey fromSecretKey uuid
      ["media"; "srv"] "medimesh.json" w = (Returned 0%nat, w') /\
    deref (heap w') 0%nat !! "name" = Some (Str "node") /\
    deref (heap w') 0%nat !! "publicKey" = None /\
    deref (heap w') 0%nat !! "privateKey" = None /\
    files w' !! configFile = Some (deref (heap w') 0%nat) /\
    heap w' !! 1%nat = Some copy /\
    copy !! "publicKey" = Some (Str freshPublicKey) /\
    copy !! "privateKey" = Some (Str freshSecretKey).
Proof.
  intros configFile w.
  destruct (findConfig_drops_the_prepared_copy ["media"; "srv"] "medimesh.json" w
              configFile {[ "name" := Str "node" ]})
    as (w' & copy & Hrun & Hheap & Hpub & Hpriv & Hfile & Hcpub & Hcpriv);
    try reflexivity.
  exists w', copy. cbn [heap length] in *.
  split; [exact Hrun|].
  assert (Hobj : deref (heap w') 0%nat
                 = assign (assign ∅ (defaultConfig darwin)) {[ "name" := Str "node" ]})
    by (rewrite Hheap; reflexivity).
  split; [rewrite Hobj, assign_lookup; reflexivity|].
  split; [exact Hpub|]. split; [exact Hpriv|]. split; [exact Hfile|].
  split; [rewrite Hheap; reflexivity|]. split; assumption.
Qed.
End ConfigFacts.

(** ** The model on small inputs *)

Example utf8_euro : Codec.utf8 [8364] = [226; 130; 172].
Proof. reflexivity. Qed.

Example utf8_surrogate_pair : Codec.utf8 [55357; 56832] = [240; 159; 152; 128].
Proof. reflexivity. Qed.

Example utf8_lone_surrogate : Codec.utf8 [55357; 97] = [239; 191; 189; 97].
Proof. reflexivity. Qed.

Example int32BE_258 : Codec.int32BE 258 = [0; 0; 1; 2].
Proof. reflexivity. Qed.

Example parseInt_digits : Js.parseInt "42abc" = Js.Num 42.
Proof. reflexivity. Qed.

Example parseInt_hex : Js.parseInt "0x1F" = Js.Num 31.
Proof. reflexivity. Qed.

Example parseInt_no_digit : Js.parseInt "abc" = Js.NaN.
Proof. reflexivity. Qed.

Example split_ranges : Js.split "10-20" "-" = ["10"; "20"].
Proof. reflexivity. Qed.

Example split_empty : Js.split "" "-" = [""].
Proof. reflexivity. Qed.

Example trim_both : Js.trim "  7 " = "7".
Proof. reflexivity. Qed.

Example resolveRange_both :
  Http.resolveRange (Some "bytes=0-99")
  = {| Http.start := Some (Js.Num 0); Http.end_ := Some (Js.Num 99) |}.
Proof. reflexivity. Qed.

Example resolveRange_open_end :
  Http.resolveRange (Some "bytes=5-")
  = {| Http.start := Some (Js.Num 5); Http.end_ := None |}.
Proof. reflexivity. Qed.

Example resolveRange_other_unit :
  Http.resolveRange (Some "items=0-9") = {| Http.start := None; Http.end_ := None |}.
Proof. reflexivity. Qed.

Example resolveRange_three_parts :
  Http.resolveRange (Some "bytes=1-2-3") = {| Http.start := None; Http.end_ := None |}.
Proof. reflexivity. Qed.

Example removeSuffix_slash : Http.removeSuffix "a/b/" "/" = "a/b".
Proof. reflexivity. Qed.

Example findFsEntryInTree_walks_up :
  Config.findFsEntryInTree
    {[ ["medimesh.json"; "srv"] := (∅ : gmap string Config.value) ]}
    ["media"; "srv"] "medimesh.json"
  = Some ["medimesh.json"; "srv"].
Proof. reflexivity. Qed.

(** * Further properties *)

(** ** The bubble hook on other inputs *)

Section BubbleEdges.
Import Js Netx.
Context {Data : Type}.

(** X1.  A message that is no bubble (not a plain-object message, or an id
    without the marker) is left alone by the hook, whether or not it has a
    header; a message marked as a bubble that carries no header makes the
    hook throw. *)
Theorem bubbleHook_on_non_bubbles
    (this : NetId) (nodeId : string) (handler : HandlerId) (m : Message Data) :
  (type _ m <> object \/ startsWith (id _ m) "[bubble]" = false ->
     bubbleHook _ this nodeId handler m = Returned []) /\
  (type _ m = object -> startsWith (id _ m) "[bubble]" = true ->
     header _ m = None ->
     bubbleHook _ this nodeId handler m = Threw TypeError).
Proof.
  split.
  - intros [Ht|Hp]; unfold bubbleHook.
    + destruct (type _ m) as [|tag]; [congruence|reflexivity].
    + rewrite Hp. destruct (negb (MessageType_eqb (type _ m) object)); reflexivity.
  - intros Ht Hp Hh. unfold bubbleHook. rewrite Ht, Hp, Hh. reflexivity.
Qed.

(** X2.  What a node forwards it will itself drop: the message that the hook
    sends names the node in its header, so any bubble hook registered
    under the same name, on any connection, answers it with nothing. *)
Theorem bubble_forwarded_message_is_dropped_by_its_sender
    (this : NetId) (nodeId : string) (handler : HandlerId) (m : Message Data)
    (effects : list (Effect Data)) :
  bubbleHook _ this nodeId handler m = Returned effects ->
  forall (net : NetId) (i : string) (d : Data) (h : list string),
    In (Send net i d h) effects ->
    In nodeId h /\
    forall (this' : NetId) (handler' : HandlerId),
      bubbleHook _ this' nodeId handler'
        {| type := object; id := i; data := d; header := Some h |}
      = Returned [].
Proof.
  intros Hrun net i d h Hin. unfold bubbleHook in Hrun.
  destruct (negb (MessageType_eqb (type _ m) object));
    [injection Hrun as <-; destruct Hin|].
  destruct (negb (startsWith (id _ m) "[bubble]"));
    [injection Hrun as <-; destruct Hin|].
  destruct (header _ m) as [nodeIds|]; [|discriminate Hrun].
  destruct (includes nodeIds nodeId); injection Hrun as <-; [destruct Hin|].
  destruct Hin as [Heq|[Heq|[]]]; [|discriminate Heq].
  injection Heq as <- <- <- <-.
  assert (Hnamed : In nodeId (nodeIds ++ [nodeId])).
  { apply in_or_app. right. left. reflexivity. }
  split; [exact Hnamed|].
  intros this' handler'.
  apply (bubbleHook_discards_visited this' nodeId handler' _ (nodeIds ++ [nodeId]));
    [reflexivity|exact Hnamed].
Qed.

Lemma same_name_cycle (name id : string) (data : Data) (fuel : nat) :
  run _ (twoNodes _ name name) (S fuel) (cycleStart _ name name id data)
  = {| inflight := []; invoked := []; fault := false |}.
Proof.
  change (run _ (twoNodes _ name name) (S fuel) (cycleStart _ name name id data))
    with (run _ (twoNodes _ name name) fuel
            (step _ (twoNodes _ name name) (cycleStart _ name name id data))).
  assert (H1 : step _ (twoNodes _ name name) (cycleStart _ name name id data)
               = {| inflight := []; invoked := []; fault := false |}).
  { unfold step, cycleStart, sendBubble, perform, dispatch. cbn [fold_left deliver inflight
      invoked fault idle app twoNodes peer nets findNet find netA netB addBubbleHook
      addReadHook self readHooks Nat.eqb runHooks bind].
    rewrite (bubbleHook_discards_visited 1%nat name 1%nat
               {| type := object; id := String.append "[bubble]" id;
                  data := data; header := Some [name] |} [name] eq_refl);
      [reflexivity|left; reflexivity]. }
  rewrite H1. apply run_quiescent. reflexivity.
Qed.

(** Whatever the two names are, a bubble that A sends is settled within two
    deliveries: afterwards nothing is in flight, A's own handler has not
    been called and B's handler has been called at most once.  When both
    ends are registered under the same name, B's handler is not called at
    all: the bubble is lost. *)
Theorem two_node_exchange_always_ends
    (nameA nameB id : string) (data : Data) (fuel : nat) :
  (2 <= fuel)%nat ->
  let final := run _ (twoNodes _ nameA nameB) fuel (cycleStart _ nameA nameB id data) in
  quiescent _ final = true /\
  fault _ final = false /\
  timesInvoked _ 0%nat final = 0%nat /\
  (timesInvoked _ 1%nat final <= 1)%nat /\
  (nameA = nameB -> invoked _ final = []).
Proof.
  intros Hfuel final. subst final.
  destruct fuel as [|[|fuel]]; [lia|lia|].
  destruct (String.eqb_spec nameA nameB) as [->|Hne].
  - rewrite same_name_cycle. cbn. repeat split. lia.
  - rewrite (two_node_cycle nameA nameB id data fuel Hne). cbn.
    repeat split; [lia|]. intros Heq. contradiction.
Qed.
End BubbleEdges.

Lemma bubbleHook_on_non_bubbles_witness :
  Netx.bubbleHook unit 0%nat "N" 0%nat
    {| Netx.type := Netx.object; Netx.id := "file-tree-rebuild"; Netx.data := tt;
       Netx.header := None |} = Js.Returned [] /\
  Netx.bubbleHook unit 0%nat "N" 0%nat
    {| Netx.type := Netx.object; Netx.id := "[bubble]ping"; Netx.data := tt;
       Netx.header := None |} = Js.Threw Js.TypeError.
Proof.
  split.
  - apply (proj1 (bubbleHook_on_non_bubbles 0%nat "N" 0%nat _)).
    right. reflexivity.
  - apply (proj2 (bubbleHook_on_non_bubbles 0%nat "N" 0%nat _)); reflexivity.
Defined.

Lemma bubble_forwarded_message_is_dropped_by_its_sender_witness :
  Netx.bubbleHook unit 5%nat "N" 9%nat
    {| Netx.type := Netx.object; Netx.id := "[bubble]ping"; Netx.data := tt;
       Netx.header := Some ["A"; "N"] |} = Js.Returned [].
Proof.
  refine (proj2 (bubble_forwarded_message_is_dropped_by_its_sender 3%nat "N" 7%nat
           {| Netx.type := Netx.object; Netx.id := "[bubble]ping"; Netx.data := tt;
              Netx.header := Some ["A"] |} _ eq_refl
           3%nat "[bubble]ping" tt ["A"; "N"] _) 5%nat 9%nat).
  left. reflexivity.
Defined.

Lemma two_node_exchange_always_ends_witness :
  Netx.invoked unit
    (Netx.run unit (Netx.twoNodes unit "N" "N") 3 (Netx.cycleStart unit "N" "N" "ping" tt))
  = [].
Proof.
  assert (Hfuel : (2 <= 3)%nat) by lia.
  exact (proj2 (proj2 (proj2 (proj2
           (two_node_exchange_always_ends "N" "N" "ping" tt 3%nat Hfuel)))) eq_refl).
Defined.

(** ** The batch string encoder: errors and composition *)

Section CodecMore.
Import Js Codec.
Variable encode : jsstring -> list Z.
Variable ensureCapacity : BufferWriter -> nat -> BufferWriter.

(** X3.  A total length that is no int32 makes [strings] throw a RangeError,
    whatever the writer and its capacity; no writer is returned. *)
Theorem strings_rejects_oversized_total (w : BufferWriter) (values : list jsstring) :
  2 ^ 31 - 1 < Z.of_nat (length (concat (map encode values))) ->
  strings encode ensureCapacity w values = Threw RangeError.
Proof.
  intros Hbig. unfold strings. rewrite fold_record. cbn [fst snd app Nat.add].
  rewrite writeInt32BE_rejects_large by exact Hbig. reflexivity.
Qed.

Hypothesis ensure_ok : ensuresCapacity ensureCapacity.

(** The writer that [strings] returns, in full. *)
Lemma strings_returns (w : BufferWriter) (values : list jsstring) :
  let payload := concat (map encode values) in
  let grown := backend (ensureCapacity w (length payload + 4)%nat) in
  (cursor w <= length (backend w))%nat ->
  Z.of_nat (length payload) <= 2 ^ 31 - 1 ->
  strings encode ensureCapacity w values
  = Returned
      {| backend := take (cursor w) (backend w)
                    ++ int32BE (Z.of_nat (length payload))
                    ++ payload
                    ++ drop (cursor w + 4 + length payload)%nat grown;
         cursor := (cursor w + 4 + length payload)%nat |}.
Proof.
  intros payload grown Hinside Hsmall.
  assert (Hv : 0 <= Z.of_nat (length payload) < 2 ^ 31) by lia.
  unfold strings. rewrite fold_record. cbn [fst snd app Nat.add].
  fold payload.
  destruct (ensure_ok w (length payload + 4)%nat Hinside) as (Hcur & Hcap & Hpre).
  fold grown in Hcap, Hpre.
  set (w1 := ensureCapacity w (length payload + 4)%nat) in *.
  set (pre := take (cursor w) grown).
  set (rest := drop (cursor w) grown).
  assert (Hsplit : backend w1 = pre ++ rest) by (symmetry; apply take_drop).
  assert (Hlpre : length pre = cursor w) by (apply length_take_le; lia).
  assert (Hlrest : (length payload + 4 <= length rest)%nat).
  { unfold rest. rewrite length_drop. lia. }
  unfold writeInt32BE.
  replace ((Z.of_nat (length payload) <? - 2 ^ 31)
           || (2 ^ 31 - 1 <? Z.of_nat (length payload))) with false
    by (symmetry; apply orb_false_iff; split; apply Z.ltb_ge; lia).
  replace (length (backend w1) <? cursor w1 + 4)%nat with false
    by (symmetry; apply Nat.ltb_ge; fold grown; lia).
  cbn [bind]. rewrite Hcur, Hsplit.
  rewrite Z.mod_small by lia.
  set (hdr := int32BE (Z.of_nat (length payload))).
  assert (Hlhdr : length hdr = 4%nat) by reflexivity.
  rewrite <- Hlpre at 1 2.
  rewrite writeAt_split by (rewrite Hlhdr; lia).
  replace (length pre + 4)%nat with (length (pre ++ hdr))
    by (rewrite length_app, Hlhdr; reflexivity).
  rewrite (app_assoc pre hdr).
  rewrite fold_writeOne by (rewrite length_drop, Hlhdr; fold payload; lia).
  fold payload. f_equal. f_equal.
  - rewrite <- app_assoc. unfold pre at 1. rewrite Hpre.
    f_equal. f_equal. f_equal.
    rewrite drop_drop. unfold rest. rewrite drop_drop. f_equal. rewrite Hlhdr. lia.
  - rewrite length_app, Hlhdr, Hlpre. reflexivity.
Qed.

(** X4.  The frame depends on the values only through the bytes run together:
    two sequences of values with the same concatenated bytes make [strings]
    return the same writer, or throw the same error. *)
Theorem strings_depends_only_on_concatenation
    (w : BufferWriter) (values values' : list jsstring) :
  (cursor w <= length (backend w))%nat ->
  concat (map encode values) = concat (map encode values') ->
  strings encode ensureCapacity w values = strings encode ensureCapacity w values'.
Proof.
  intros Hinside Hsame.
  destruct (Z.le_gt_cases (Z.of_nat (length (concat (map encode values)))) (2 ^ 31 - 1))
    as [Hsmall|Hbig].
  - rewrite (strings_returns w values Hinside Hsmall).
    rewrite Hsame in Hsmall.
    rewrite (strings_returns w values' Hinside Hsmall).
    rewrite Hsame. reflexivity.
  - assert (Hbig' : 2 ^ 31 - 1 < Z.of_nat (length (concat (map encode values'))))
      by (rewrite <- Hsame; lia).
    unfold strings. rewrite !fold_record. cbn [fst snd app Nat.add].
    rewrite !writeInt32BE_rejects_large by lia. reflexivity.
Qed.

(** X5.  Two calls of [strings] one after the other lay two frames back to
    back: from the cursor where the first call began, the writer holds the
    prefix and bytes of the first call and right after them the prefix and
    bytes of the second; what was written before is untouched. *)
Theorem strings_calls_lay_frames_back_to_back
    (w : BufferWriter) (first second : list jsstring) :
  (cursor w <= length (backend w))%nat ->
  Z.of_nat (length (concat (map encode first))) <= 2 ^ 31 - 1 ->
  Z.of_nat (length (concat (map encode second))) <= 2 ^ 31 - 1 ->
  exists w1 w2 : BufferWriter,
    strings encode ensureCapacity w first = Returned w1 /\
    strings encode ensureCapacity w1 second = Returned w2 /\
    written (cursor w) w2
      = int32BE (Z.of_nat (length (concat (map encode first))))
        ++ concat (map encode first)
        ++ int32BE (Z.of_nat (length (concat (map encode second))))
        ++ concat (map encode second) /\
    take (cursor w) (backend w2) = take (cursor w) (backend w).
Proof.
  intros Hinside Hs1 Hs2.
  set (p1 := concat (map encode first)) in *.
  set (p2 := concat (map encode second)) in *.
  pose proof (strings_returns w first Hinside Hs1) as H1. fold p1 in H1.
  set (tail1 := drop (cursor w + 4 + length p1)%nat
                  (backend (ensureCapacity w (length p1 + 4)%nat))) in H1.
  set (pre := take (cursor w) (backend w)) in *.
  assert (Hlpre : length pre = cursor w) by (apply length_take_le; exact Hinside).
  set (hdr1 := int32BE (Z.of_nat (length p1))) in *.
  assert (Hlhdr1 : length hdr1 = 4%nat) by reflexivity.
  set (w1 := {| backend := pre ++ hdr1 ++ p1 ++ tail1;
                cursor := (cursor w + 4 + length p1)%nat |}) in H1.
  assert (Hinside1 : (cursor w1 <= length (backend w1))%nat).
  { unfold w1. cbn [cursor backend]. rewrite !length_app, Hlpre, Hlhdr1. lia. }
  pose proof (strings_returns w1 second Hinside1 Hs2) as H2. fold p2 in H2.
  set (tail2 := drop (cursor w1 + 4 + length p2)%nat
                  (backend (ensureCapacity w1 (length p2 + 4)%nat))) in H2.
  set (hdr2 := int32BE (Z.of_nat (length p2))) in *.
  assert (Hlhdr2 : length hdr2 = 4%nat) by reflexivity.
  assert (Hpre1 : take (cursor w1) (backend w1) = pre ++ hdr1 ++ p1).
  { unfold w1. cbn [cursor backend].
    replace (cursor w + 4 + length p1)%nat with (length (pre ++ hdr1 ++ p1))
      by (rewrite !length_app, Hlpre, Hlhdr1; lia).
    rewrite !app_assoc. rewrite take_app_length. reflexivity. }
  rewrite Hpre1 in H2.
  eexists. eexists. split; [exact H1|]. split; [exact H2|].
  unfold written. cbn [backend cursor]. split.
  - rewrite <- !app_assoc. rewrite <- Hlpre at 2. rewrite drop_app_length.
    replace (cursor w1 + 4 + length p2 - cursor w)%nat
      with (length (hdr1 ++ p1 ++ hdr2 ++ p2))
      by (unfold w1; cbn [cursor]; rewrite !length_app, Hlhdr1, Hlhdr2; lia).
    replace (hdr1 ++ p1 ++ hdr2 ++ p2 ++ tail2)
      with ((hdr1 ++ p1 ++ hdr2 ++ p2) ++ tail2)
      by (rewrite <- !app_assoc; reflexivity).
    apply take_app_length.
  - rewrite <- !app_assoc. rewrite <- Hlpre at 1. apply take_app_length.
Qed.
End CodecMore.

Lemma utf8_ascii_run (n : nat) : Codec.utf8 (repeat 97 n) = repeat 97 n.
Proof.
  induction n as [|n IH]; [reflexivity|].
  change (repeat 97 (S n)) with (97 :: repeat 97 n).
  change (Codec.utf8 (97 :: repeat 97 n)) with ([97] ++ Codec.utf8 (repeat 97 n)).
  rewrite IH. reflexivity.
Qed.

Lemma strings_rejects_oversized_total_witness :
  let big := repeat 97 (Z.to_nat (2 ^ 28)) in
  Codec.strings Codec.utf8 Codec.growExact
    {| Codec.backend := []; Codec.cursor := 0 |}
    [big; big; big; big; big; big; big; big]
  = Js.Threw Js.RangeError.
Proof.
  intros big. apply strings_rejects_oversized_total.
  assert (Hlen : length (Codec.utf8 big) = Z.to_nat (2 ^ 28)).
  { unfold big. rewrite utf8_ascii_run. apply repeat_length. }
  cbn [map concat]. rewrite !length_app, Hlen. cbn [length].
  change (2 ^ 31) with 2147483648. change (2 ^ 28) with 268435456. lia.
Defined.

Lemma strings_depends_only_on_concatenation_witness :
  let w := {| Codec.backend := [7]; Codec.cursor := 1 |} in
  Codec.strings Codec.utf8 Codec.growExact w [Codec.ofAscii "ab"; Codec.ofAscii "c"]
  = Codec.strings Codec.utf8 Codec.growExact w [Codec.ofAscii "a"; Codec.ofAscii "bc"].
Proof.
  intros w.
  apply (strings_depends_only_on_concatenation Codec.utf8 Codec.growExact
           growExact_ensuresCapacity w).
  - simpl. lia.
  - reflexivity.
Defined.

Lemma strings_calls_lay_frames_back_to_back_witness :
  let w := {| Codec.backend := [7; 7]; Codec.cursor := 2 |} in
  exists w1 w2 : Codec.BufferWriter,
    Codec.strings Codec.utf8 Codec.growExact w [Codec.ofAscii "id"] = Js.Returned w1 /\
    Codec.strings Codec.utf8 Codec.growExact w1 [Codec.ofAscii "a"; Codec.ofAscii "b"]
      = Js.Returned w2 /\
    Codec.written 2 w2
      = Codec.int32BE 2 ++ [105; 100] ++ Codec.int32BE 2 ++ [97; 98] /\
    take 2 (Codec.backend w2) = [7; 7].
Proof.
  intros w.
  apply (strings_calls_lay_frames_back_to_back Codec.utf8 Codec.growExact
           growExact_ensuresCapacity w [Codec.ofAscii "id"]
           [Codec.ofAscii "a"; Codec.ofAscii "b"]).
  - simpl. lia.
  - vm_compute. discriminate.
  - vm_compute. discriminate.
Defined.

(** ** The file route: who gets bytes *)

Section RouteMore.
Import Js Http.

Lemma passcodeHandler_lets_through
    (config : Server.AppConfig) (decodeURI : string -> option string)
    (req : Server.Request) (res : Response) :
  Server.passcodeHandler config decodeURI req res = None ->
  truthy (Server.passcode config) = false \/
  decodeURI (nullish (Server.queryPasscode req) "undefined")
    = Some (nullish (Server.passcode config) EmptyString).
Proof.
  unfold Server.passcodeHandler. intros Hgate.
  destruct (truthy (Server.passcode config)); [right|left; reflexivity].
  cbn [negb] in Hgate.
  destruct (decodeURI (nullish (Server.queryPasscode req) "undefined"))
    as [given|] eqn:Hd; [|discriminate Hgate].
  destruct (String.eqb_spec given (nullish (Server.passcode config) EmptyString))
    as [->|Hne]; [reflexivity|discriminate Hgate].
Qed.

Lemma passcodeHandler_refusal
    (config : Server.AppConfig) (decodeURI : string -> option string)
    (req : Server.Request) (res refusal : Response) :
  Server.passcodeHandler config decodeURI req res = Some refusal ->
  (statusCode refusal = 401 \/ statusCode refusal = 400) /\
  (exists code, body refusal = JsonError code) /\
  ended refusal = true.
Proof.
  unfold Server.passcodeHandler. intros Hgate.
  destruct (negb (truthy (Server.passcode config))); [discriminate Hgate|].
  destruct (decodeURI (nullish (Server.queryPasscode req) "undefined")) as [given|].
  - destruct (negb (String.eqb given _)); [|discriminate Hgate].
    injection Hgate as <-. cbn. split; [left; reflexivity|]. split; [eexists|]; reflexivity.
  - injection Hgate as <-. cbn. split; [right; reflexivity|]. split; [eexists|]; reflexivity.
Qed.

Lemma pipeFile_bytes
    (plugins : list Server.MeditreePlugin) (createReadStream : CreateReadStream)
    (req : Server.Request) (res : Response) (file : ResolvedFile) (bs : list Z) :
  body res = NoBody ->
  body (response (Server.pipeFile plugins createReadStream req res file)) = Bytes bs ->
  statusCode (response (Server.pipeFile plugins createReadStream req res file)) = 200 \/
  statusCode (response (Server.pipeFile plugins createReadStream req res file)) = 206 \/
  statusCode (response (Server.pipeFile plugins createReadStream req res file)) = 500.
Proof.
  intros Hempty. unfold Server.pipeFile.
  destruct (Server.askPlugins _ _ _ _ _) as [[[ | |s]|e] log] eqn:Hask;
    try destruct (createReadStream _ _) as [[ | |s']|e'];
    cbn [response done_ piped requested body finish status];
    try (destruct (truthy (Server.range req)); cbn [body setHeader status];
         rewrite Hempty; discriminate).
  - intros _. rewrite statusCode_pipe.
    destruct (fails s' && bool_decide (chunks s' = [])); [right; right; reflexivity|].
    destruct (truthy (Server.range req)); cbn; auto.
  - intros _. rewrite statusCode_pipe.
    destruct (fails s && bool_decide (chunks s = [])); [right; right; reflexivity|].
    destruct (truthy (Server.range req)); cbn; auto.
Qed.

Lemma pipeFile_status_range
    (plugins : list Server.MeditreePlugin) (createReadStream : CreateReadStream)
    (req : Server.Request) (res : Response) (file : ResolvedFile) :
  statusCode (response (Server.pipeFile plugins createReadStream req res file)) <> 400 /\
  statusCode (response (Server.pipeFile plugins createReadStream req res file)) <> 401.
Proof.
  unfold Server.pipeFile.
  destruct (Server.askPlugins _ _ _ _ _) as [[[ | |s]|e] log];
    try destruct (createReadStream _ _) as [[ | |s']|e'];
    cbn [response done_ piped statusCode finish status]; rewrite ?statusCode_pipe;
    try destruct (fails _ && bool_decide _); destruct (truthy (Server.range req));
    cbn [statusCode setHeader status]; split; discriminate.
Qed.

(** X6.  No bytes of a file leave the route unless the request passed the
    passcode gate: when the route answers with bytes and a passcode is
    configured, the decoded passcode of the request is the configured one.
    Bytes go out under the status 200, 206 or 500 only, for a path that the
    resolver answered with an entry that declares a type. *)
Theorem file_route_sends_bytes_only_past_the_gate
    (config : Server.AppConfig) (decodeURI : string -> option string) (now : Z)
    (nodeResolveFile : list string -> nullable ResolvedFile)
    (plugins : list Server.MeditreePlugin) (createReadStream : CreateReadStream)
    (req : Server.Request) (bs : list Z) :
  let o := Server.fileRoute config decodeURI now nodeResolveFile plugins
             createReadStream req in
  body (response o) = Bytes bs ->
  (truthy (Server.passcode config) = true ->
     decodeURI (nullish (Server.queryPasscode req) "undefined")
       = Some (nullish (Server.passcode config) EmptyString)) /\
  (statusCode (response o) = 200 \/ statusCode (response o) = 206 \/
   statusCode (response o) = 500) /\
  (exists uri,
     decodeURI (Server.url req) = Some uri /\
     truthy (innerType
               (nodeResolveFile (split (removeSuffix (removePrefix uri "/file/") "/") "/")))
       = true).
Proof.
  intros o. unfold o, Server.fileRoute.
  destruct (Server.passcodeHandler config decodeURI req freshResponse) as [res|] eqn:Hgate.
  - destruct (passcodeHandler_refusal _ _ _ _ _ Hgate) as (_ & [code Hbody] & _).
    cbn [response done_ piped]. rewrite Hbody. discriminate.
  - pose proof (passcodeHandler_lets_through _ _ _ _ Hgate) as Hpass.
    unfold Server.fileHandler.
    destruct (decodeURI (Server.url req)) as [uri|] eqn:Huri; [|discriminate].
    destruct (truthy (innerType (nodeResolveFile _))) eqn:Htype; [|discriminate].
    cbn [negb].
    destruct (nodeResolveFile _) as [ | |file] eqn:Hres; try discriminate.
    destruct (Server.refusedByPlugin plugins file) as [[|]|e]; try discriminate.
    intros Hbytes.
    split; [intros Hset; destruct Hpass as [Hoff|Hok]; [congruence|exact Hok]|].
    split; [apply (pipeFile_bytes _ _ _ _ _ bs); [reflexivity|exact Hbytes]|].
    exists uri. split; [reflexivity|]. rewrite Hres. exact Htype.
Qed.

(** X7.  Every refusal of the route (status 400 or 401: a wrong or undecodable
    passcode, an undecodable URI, a plugin that refuses the request) is
    answered without asking for any stream, and without bytes. *)
Theorem file_route_refusals_open_no_stream
    (config : Server.AppConfig) (decodeURI : string -> option string) (now : Z)
    (nodeResolveFile : list string -> nullable ResolvedFile)
    (plugins : list Server.MeditreePlugin) (createReadStream : CreateReadStream)
    (req : Server.Request) :
  let o := Server.fileRoute config decodeURI now nodeResolveFile plugins
             createReadStream req in
  statusCode (response o) = 400 \/ statusCode (response o) = 401 ->
  requested o = [] /\
  (forall bs, body (response o) <> Bytes bs) /\
  ended (response o) = true /\
  rejected o = None.
Proof.
  intros o. unfold o, Server.fileRoute.
  destruct (Server.passcodeHandler config decodeURI req freshResponse) as [res|] eqn:Hgate.
  - destruct (passcodeHandler_refusal _ _ _ _ _ Hgate) as (_ & [code Hbody] & Hended).
    cbn [response done_ piped requested rejected]. intros _.
    split; [reflexivity|]. split; [intros bs; rewrite Hbody; discriminate|].
    split; [exact Hended|reflexivity].
  - unfold Server.fileHandler.
    destruct (decodeURI (Server.url req)) as [uri|].
    + destruct (negb (truthy (innerType (nodeResolveFile _)))).
      { cbn. intros [H|H]; discriminate H. }
      destruct (nodeResolveFile _) as [ | |file].
      { cbn. intros [H|H]; discriminate H. }
      { cbn. intros [H|H]; discriminate H. }
      destruct (Server.refusedByPlugin plugins file) as [[|]|e].
      * cbn. intros _. repeat split. intros bs H. discriminate H.
      * intros Hstatus. exfalso.
        match goal with
        | H : statusCode (response (Server.pipeFile ?ps ?c ?r ?rs ?f)) = 400 \/ _ |- _ =>
            destruct (pipeFile_status_range ps c r rs f) as [H400 H401]
        end.
        destruct Hstatus as [H|H]; [apply H400|apply H401]; exact H.
      * cbn. intros [H|H]; discriminate H.
    + cbn. intros _. repeat split. intros bs H. discriminate H.
Qed.
End RouteMore.

Lemma file_route_sends_bytes_only_past_the_gate_witness :
  let tree := Http.Directory
                [("a.txt", Http.FileEntry "text/plain" 3 (Http.Local "/srv/a.txt"))] in
  let config := {| Server.passcode := Some "s3cret"; Server.cacheMaxAge := 3600;
                   Server.fileType := [("**/*.txt", "text/plain")] |} in
  let req := {| Server.url := "/file/a.txt"; Server.queryPasscode := Some "s3cret";
                Server.range := None |} in
  let o := Server.fileRoute config Some 0 (Http.resolveFile String.eqb tree) []
             (Http.localCreateReadStream [104; 105; 33]) req in
  Http.body (Http.response o) = Http.Bytes [104; 105; 33] /\
  (Http.statusCode (Http.response o) = 200 \/ Http.statusCode (Http.response o) = 206 \/
   Http.statusCode (Http.response o) = 500).
Proof.
  intros tree config req o.
  assert (Hbytes : Http.body (Http.response o) = Http.Bytes [104; 105; 33])
    by (vm_compute; reflexivity).
  split; [exact Hbytes|].
  exact (proj1 (proj2 (file_route_sends_bytes_only_past_the_gate config Some 0
                         (Http.resolveFile String.eqb tree) []
                         (Http.localCreateReadStream [104; 105; 33]) req
                         [104; 105; 33] Hbytes))).
Defined.

Lemma file_route_refusals_open_no_stream_witness :
  let tree := Http.Directory
                [("a.txt", Http.FileEntry "text/plain" 3 (Http.Local "/srv/a.txt"))] in
  let config := {| Server.passcode := Some "s3cret"; Server.cacheMaxAge := 3600;
                   Server.fileType := [("**/*.txt", "text/plain")] |} in
  let req := {| Server.url := "/file/a.txt"; Server.queryPasscode := None;
                Server.range := None |} in
  let o := Server.fileRoute config Some 0 (Http.resolveFile String.eqb tree) []
             (Http.localCreateReadStream [104; 105; 33]) req in
  Http.statusCode (Http.response o) = 401 /\ Http.requested o = [].
Proof.
  intros tree config req o.
  assert (Hstatus : Http.statusCode (Http.response o) = 401) by (vm_compute; reflexivity).
  split; [exact Hstatus|].
  exact (proj1 (file_route_refusals_open_no_stream config Some 0
                  (Http.resolveFile String.eqb tree) []
                  (Http.localCreateReadStream [104; 105; 33]) req
                  (or_intror Hstatus))).
Defined.

(** ** [pipeFile]: plugins, other units, files without a size *)

Section PipeFileMore.
Import Js Http.




Lemma pipeFile_accept_ranges
    (plugins : list Server.MeditreePlugin) (createReadStream : CreateReadStream)
    (req : Server.Request) (res : Response) (file : ResolvedFile) :
  truthy (Server.range req) = true ->
  headers (response (Server.pipeFile plugins createReadStream req res file))
    !! "accept-ranges"
  = Some (Text "bytes").
Proof.
  intros Hrange. unfold Server.pipeFile. rewrite Hrange.
  destruct (Server.askPlugins _ _ _ _ _) as [[[ | |s]|e] log];
    try destruct (createReadStream _ _) as [[ | |s]|e];
    cbn [response done_ piped headers finish status]; rewrite ?headers_pipe;
    cbn [headers setHeader status]; apply lookup_insert_eq.
Qed.

(** The status of what [pipeFile] leaves behind is the one it set, 404
    when there is no stream, or 500 when the stream failed before its
    first byte; with bytes as the body it is the one it set. *)
Lemma pipeFile_status_cases
    (plugins : list Server.MeditreePlugin) (createReadStream : CreateReadStream)
    (req : Server.Request) (res : Response) (file : ResolvedFile) :
  body res = NoBody ->
  let o := Server.pipeFile plugins createReadStream req res file in
  let set := if truthy (Server.range req) then 206 else 200 in
  (statusCode (response o) = set \/ statusCode (response o) = 404 \/
   statusCode (response o) = 500) /\
  (forall bs, body (response o) = Bytes bs -> statusCode (response o) = set).
Proof.
  intros Hempty o set. unfold o, set, Server.pipeFile.
  destruct (Server.askPlugins _ _ _ _ _) as [[[ | |s]|e] log];
    try destruct (createReadStream _ _) as [[ | |s']|e'];
    cbn [response done_ piped body statusCode finish status];
    try (split; [destruct (truthy (Server.range req)); cbn; auto|];
         intros bs; destruct (truthy (Server.range req)); cbn [body setHeader status];
         rewrite Hempty; discriminate).
  - unfold pipe. destruct (fails s'); [destruct (chunks s')|];
      (split; [|intros bs H; try discriminate H];
       destruct (truthy (Server.range req)); cbn; auto).
  - unfold pipe. destruct (fails s); [destruct (chunks s)|];
      (split; [|intros bs H; try discriminate H];
       destruct (truthy (Server.range req)); cbn; auto).
Qed.

(** X9.  A Range header in a unit other than [bytes=] resolves to no bounds,
    and yet it counts as a range request: every stream is asked for with
    the whole file, from 0 to [size - 1]; the status is 206, 404 or 500;
    bytes go out under 206 only; and with 206 go content-length [size],
    content-range [0-(size-1)/size] and accept-ranges [bytes].  The size
    is one that a double holds exactly. *)
Theorem other_range_unit_is_answered_206_with_whole_file
    (plugins : list Server.MeditreePlugin) (createReadStream : CreateReadStream)
    (req : Server.Request) (res : Response)
    (file : ResolvedFile) (header : string) (size : Z) :
  Server.range req = Some header ->
  header <> EmptyString ->
  startsWith header "bytes=" = false ->
  innerSize file = Num size ->
  0 <= size < 2 ^ 53 ->
  body res = NoBody ->
  let whole := {| optStart := Num 0; optEnd := Num (size - 1) |} in
  let o := Server.pipeFile plugins createReadStream req res file in
  resolveRange (Server.range req) = {| start := None; end_ := None |} /\
  Forall (eq (Some whole)) (requested o) /\
  (plugins = [] -> requested o = [Some whole]) /\
  (statusCode (response o) = 206 \/ statusCode (response o) = 404 \/
   statusCode (response o) = 500) /\
  (forall bs, body (response o) = Bytes bs -> statusCode (response o) = 206) /\
  (statusCode (response o) = 206 ->
     headers (response o) !! "content-length" = Some (Number (Num size)) /\
     headers (response o) !! "content-range"
       = Some (ContentRange (Num 0) (Num (size - 1)) (Num size)) /\
     headers (response o) !! "accept-ranges" = Some (Text "bytes")).
Proof.
  intros Hrange Hne Hunit Hsize _ Hempty whole o.
  assert (Htruthy : truthy (Server.range req) = true).
  { rewrite Hrange. apply truthy_nonempty. exact Hne. }
  assert (Hnone : resolveRange (Server.range req) = {| start := None; end_ := None |}).
  { unfold resolveRange. rewrite Htruthy, Hrange. cbn [negb nullish].
    rewrite Hunit. reflexivity. }
  assert (Hbounds : Server.bounds req file = whole).
  { unfold Server.bounds. rewrite Hnone. cbn [start end_ nullish].
    rewrite Hsize. reflexivity. }
  split; [exact Hnone|].
  split.
  { unfold o, Server.pipeFile.
    change {| optStart := nullish (start (resolveRange (Server.range req))) (Num 0);
              optEnd := nullish (end_ (resolveRange (Server.range req)))
                          (num_sub (innerSize file) (Num 1)) |}
      with (Server.bounds req file).
    rewrite Hbounds.
    pose proof (askPlugins_requested plugins file whole Undefined [] (List.Forall_nil _))
      as Hlog.
    destruct (Server.askPlugins plugins file whole Undefined []) as [[[ | |s]|e] log];
      cbn [snd] in Hlog;
      try destruct (createReadStream file (Some whole)) as [[ | |s']|e'];
      cbn [requested done_ piped]; try exact Hlog;
      (apply Forall_app; split; [exact Hlog|constructor; [reflexivity|constructor]]). }
  split.
  { intros ->. unfold o, Server.pipeFile. cbn [Server.askPlugins].
    change {| optStart := nullish (start (resolveRange (Server.range req))) (Num 0);
              optEnd := nullish (end_ (resolveRange (Server.range req)))
                          (num_sub (innerSize file) (Num 1)) |}
      with (Server.bounds req file).
    rewrite Hbounds.
    destruct (createReadStream file (Some whole)) as [[ | |s']|e']; reflexivity. }
  destruct (pipeFile_status_cases plugins createReadStream req res file Hempty)
    as [Hstatus Hbytes].
  fold o in Hstatus, Hbytes. rewrite Htruthy in Hstatus, Hbytes.
  split; [exact Hstatus|]. split; [exact Hbytes|].
  intros _. unfold o.
  rewrite pipeFile_content_length, pipeFile_content_range, pipeFile_accept_ranges
    by exact Htruthy.
  rewrite Hbounds, Hsize. unfold Server.retrievedLength, whole.
  cbn [optStart optEnd num_add num_sub].
  split; [|split; reflexivity]. do 3 f_equal. lia.
Qed.

(** X10.  The early [pipeFile] on a file whose entry has no size: the stream
    is asked for with no options at all, whatever the Range header says,
    and [pipeFile] sets neither the status nor a header.  A stream that
    does not fail is sent under the status and the headers that the
    response had.  A stream that fails after its first byte leaves these
    and the bytes delivered, the response is not ended, and [sendStatus]
    throws in the listener.  A stream that fails before its first byte is
    answered 500 with the text of the status. *)
Theorem early_pipeFile_without_size
    (createReadStream : CreateReadStream) (req : ServerLegacy.Request)
    (res : Response) (file : ResolvedFile) (s : Readable) :
  size (inner file) = None ->
  createReadStream file None = Returned (Ref s) ->
  let o := ServerLegacy.pipeFile createReadStream req res file in
  requested o = [None] /\
  rejected o = None /\
  (fails s = false ->
     response o = send res (Bytes (chunks s)) /\ uncaught o = None) /\
  (fails s = true -> chunks s <> [] ->
     statusCode (response o) = statusCode res /\
     headers (response o) = headers res /\
     body (response o) = Bytes (chunks s) /\
     ended (response o) = false /\
     uncaught o = Some headersSent) /\
  (fails s = true -> chunks s = [] ->
     statusCode (response o) = 500 /\
     body (response o) = StatusText 500 /\
     ended (response o) = true /\
     uncaught o = None).
Proof.
  intros Hsize Hopen o. unfold o, ServerLegacy.pipeFile. rewrite Hsize, Hopen.
  unfold ServerLegacy.respond, piped, pipe, thrownByListener.
  cbn [requested rejected response uncaught].
  split; [reflexivity|]. split; [reflexivity|]. split; [|split].
  - intros ->. split; reflexivity.
  - intros -> Hsome. destruct (chunks s); [contradiction|]. repeat split.
  - intros -> ->. repeat split.
Qed.
End PipeFileMore.


Lemma other_range_unit_is_answered_206_with_whole_file_witness :
  let file := {| Http.inner := {| Http.starType := Some "text/plain";
                                  Http.size := Some 3 |};
                 Http.fileType := Some "text/plain"; Http.fileSize := Some 3 |} in
  let req := {| Server.url := "/file/a.txt"; Server.queryPasscode := None;
                Server.range := Some "items=0-1" |} in
  let o := Server.pipeFile [] (fun _ _ => Js.Returned (Js.Ref
                                 {| Http.chunks := [104; 105; 33]; Http.fails := false |}))
             req Http.freshResponse file in
  Http.requested o = [Some {| Http.optStart := Js.Num 0; Http.optEnd := Js.Num 2 |}] /\
  Http.statusCode (Http.response o) = 206 /\
  Http.headers (Http.response o) !! "content-length" = Some (Http.Number (Js.Num 3)) /\
  Http.headers (Http.response o) !! "content-range"
    = Some (Http.ContentRange (Js.Num 0) (Js.Num 2) (Js.Num 3)) /\
  Http.headers (Http.response o) !! "accept-ranges" = Some (Http.Text "bytes").
Proof.
  intros file req o.
  assert (Hunit : "items=0-1" <> EmptyString) by discriminate.
  destruct (other_range_unit_is_answered_206_with_whole_file []
              (fun _ _ => Js.Returned (Js.Ref
                 {| Http.chunks := [104; 105; 33]; Http.fails := false |}))
              req Http.freshResponse file "items=0-1" 3
              eq_refl Hunit eq_refl eq_refl ltac:(lia) eq_refl)
    as (_ & _ & Hasked & _ & Hbytes & Hheaders).
  assert (Hstatus : Http.statusCode (Http.response o) = 206)
    by (apply (Hbytes [104; 105; 33]); reflexivity).
  destruct (Hheaders Hstatus) as (Hlen & Hrange & Haccept).
  split; [exact (Hasked eq_refl)|]. split; [exact Hstatus|].
  split; [exact Hlen|]. split; [exact Hrange|exact Haccept].
Defined.

Lemma early_pipeFile_without_size_witness :
  let file := {| Http.inner := {| Http.starType := Some "text/plain";
                                  Http.size := None |};
                 Http.fileType := Some "text/plain"; Http.fileSize := None |} in
  let req := {| ServerLegacy.url := "/file/a.txt";
                ServerLegacy.range := Some "bytes=1-1" |} in
  let broken := {| Http.chunks := [104; 105]; Http.fails := true |} in
  let o := ServerLegacy.pipeFile (fun _ _ => Js.Returned (Js.Ref broken)) req
             Http.freshResponse file in
  Http.requested o = [None] /\
  Http.statusCode (Http.response o) = 200 /\
  Http.body (Http.response o) = Http.Bytes [104; 105] /\
  Http.ended (Http.response o) = false /\
  Http.uncaught o = Some Http.headersSent.
Proof.
  intros file req broken o.
  destruct (early_pipeFile_without_size (fun _ _ => Js.Returned (Js.Ref broken)) req
              Http.freshResponse file broken eq_refl eq_refl)
    as (Hreq & _ & _ & Hlate & _).
  assert (Hsome : Http.chunks broken <> []) by discriminate.
  destruct (Hlate eq_refl Hsome) as (Hstatus & _ & Hbody & Hended & Hthrown).
  split; [exact Hreq|]. split; [exact Hstatus|]. split; [exact Hbody|].
  split; [exact Hended|exact Hthrown].
Defined.

(** ** [resolveRange] *)

Section RangeParsing.
Import Js Http.

Lemma chars_rev_app (s1 s2 : string) :
  list_ascii_of_string (String.rev_app s1 s2)
  = rev (list_ascii_of_string s1) ++ list_ascii_of_string s2.
Proof.
  revert s2. induction s1 as [|c s1 IH]; intros s2; [reflexivity|].
  simpl. rewrite IH. simpl. rewrite <- app_assoc. reflexivity.
Qed.

Lemma chars_rev (s : string) :
  list_ascii_of_string (String.rev s) = rev (list_ascii_of_string s).
Proof. unfold String.rev. rewrite chars_rev_app. simpl. apply app_nil_r. Qed.

Lemma chars_append (s1 s2 : string) :
  list_ascii_of_string (String.append s1 s2)
  = list_ascii_of_string s1 ++ list_ascii_of_string s2.
Proof. induction s1 as [|c s1 IH]; [reflexivity|]. simpl. rewrite IH. reflexivity. Qed.

Lemma chars_inj (s1 s2 : string) :
  list_ascii_of_string s1 = list_ascii_of_string s2 -> s1 = s2.
Proof.
  intros H. rewrite <- (string_of_list_ascii_of_string s1),
    <- (string_of_list_ascii_of_string s2), H. reflexivity.
Qed.

Lemma rev_rev_app (s cur : string) :
  String.rev (String.rev_app s cur) = String.append (String.rev cur) s.
Proof.
  apply chars_inj.
  rewrite chars_rev, chars_rev_app, rev_app_distr, rev_involutive.
  rewrite chars_append, chars_rev. reflexivity.
Qed.

Lemma rev_rev (s : string) : String.rev (String.rev s) = s.
Proof.
  apply chars_inj. rewrite !chars_rev. apply rev_involutive.
Qed.

(** [split] on a string without the separator gives the string itself. *)
Lemma split_go_without_sep (sep : ascii) (s cur : string) :
  ~ In sep (list_ascii_of_string s) ->
  split_go sep s cur = [String.append (String.rev cur) s].
Proof.
  revert cur. induction s as [|c s IH]; intros cur Hno.
  - simpl. f_equal. apply chars_inj. rewrite chars_append. simpl.
    rewrite app_nil_r. reflexivity.
  - simpl. destruct (Ascii.eqb_spec c sep) as [->|Hne].
    + exfalso. apply Hno. left. reflexivity.
    + rewrite IH by (intros Hin; apply Hno; right; exact Hin).
      f_equal. apply chars_inj. rewrite !chars_append, chars_rev. simpl.
      rewrite chars_rev, <- app_assoc. reflexivity.
Qed.

Lemma split_go_at_sep (sep : ascii) (s1 s2 cur : string) :
  ~ In sep (list_ascii_of_string s1) ->
  split_go sep (String.append s1 (String sep s2)) cur
  = String.append (String.rev cur) s1 :: split_go sep s2 EmptyString.
Proof.
  revert cur. induction s1 as [|c s1 IH]; intros cur Hno.
  - simpl. rewrite Ascii.eqb_refl. f_equal. apply chars_inj.
    rewrite chars_append. simpl. rewrite app_nil_r. reflexivity.
  - simpl. destruct (Ascii.eqb_spec c sep) as [->|Hne].
    + exfalso. apply Hno. left. reflexivity.
    + rewrite IH by (intros Hin; apply Hno; right; exact Hin).
      f_equal. apply chars_inj. rewrite !chars_append, chars_rev. simpl.
      rewrite chars_rev, <- app_assoc. reflexivity.
Qed.

Lemma split_two (sep : ascii) (s1 s2 : string) :
  ~ In sep (list_ascii_of_string s1) ->
  ~ In sep (list_ascii_of_string s2) ->
  split (String.append s1 (String sep s2)) sep = [s1; s2].
Proof.
  intros H1 H2. unfold split.
  rewrite split_go_at_sep by exact H1.
  rewrite split_go_without_sep by exact H2. reflexivity.
Qed.



End RangeParsing.

Section ParseIntFacts.
Import Js Http ParseIntView.

Lemma parseInt_view (s : string) : parseInt s = parseIntView s.
Proof.
  unfold parseInt, parseIntView.
  destruct (trimStart s) as [|c rest]; [reflexivity|].
  assert (Hradix : forall (sign : Z) (s0 : string),
    (let '(radix, s1) :=
       match s0 with
       | String "0" (String "x" rest) | String "0" (String "X" rest) => (16, rest)
       | _ => (10, s0)
       end in
     match parseDigits radix s1 None with
     | Some v => roundToDouble (sign * v)
     | None => NaN
     end)
    = (let '(radix, s1) := radixOf s0 in
       match parseDigits radix s1 None with
       | Some v => roundToDouble (sign * v)
       | None => NaN
       end)).
  { intros sign s0. destruct s0 as [|a [|x r]]; [reflexivity| |].
    - destruct a as [[] [] [] [] [] [] [] []]; reflexivity.
    - destruct a as [[] [] [] [] [] [] [] []]; try reflexivity.
      destruct x as [[] [] [] [] [] [] [] []]; reflexivity. }
  destruct c as [[] [] [] [] [] [] [] []];
    cbn [signOf Ascii.eqb Bool.eqb]; cbv beta iota;
    first [ apply Hradix
          | destruct rest as [|x r];
            [ reflexivity
            | first [ reflexivity
                    | destruct x as [[] [] [] [] [] [] [] []]; reflexivity ] ] ].
Qed.
End ParseIntFacts.

Section RangeBounds.
Import Js Http ParseIntView.


(** Below 2^53 in size every integer is its own double. *)
Lemma roundToDouble_exact (z : Z) :
  Z.abs z < 2 ^ 53 -> roundToDouble z = Num z.
Proof.
  intros Hz. unfold roundToDouble.
  destruct (Z.leb_spec (Z.log2 (Z.abs z) + 1 - 53) 0) as [_|Hlong]; [reflexivity|].
  exfalso.
  destruct (Z.eq_dec (Z.abs z) 0) as [Hzero|Hpos].
  - rewrite Hzero in Hlong. simpl in Hlong. lia.
  - assert (Hlog : Z.log2 (Z.abs z) < 53).
    { apply Z.log2_lt_pow2; [pose proof (Z.abs_nonneg z); lia|exact Hz]. }
    lia.
Qed.




End RangeBounds.


Section DecimalBounds.
Import Js Http ParseIntView.

Lemma pretty_N_char_digit (x : N) :
  (x < 10)%N ->
  digitValue 10 (pretty_N_char x) = Some (Z.of_N x) /\
  (48 <= N_of_ascii (pretty_N_char x) <= 57)%N.
Proof.
  intros Hx.
  assert (Hcases : (x = 0 \/ x = 1 \/ x = 2 \/ x = 3 \/ x = 4 \/ x = 5 \/ x = 6 \/
                    x = 7 \/ x = 8 \/ x = 9)%N) by lia.
  repeat destruct Hcases as [->|Hcases]; try subst x; split; (reflexivity || (cbn; lia)).
Qed.

Lemma pretty_N_go_digits (x : N) (s : string) :
  Forall (fun c => (48 <= N_of_ascii c <= 57)%N) (list_ascii_of_string s) ->
  Forall (fun c => (48 <= N_of_ascii c <= 57)%N) (list_ascii_of_string (pretty_N_go x s)).
Proof.
  revert s. induction (N.lt_wf_0 x) as [x _ IH]; intros s Hs.
  destruct (N.eq_dec x 0%N) as [->|Hx]; [rewrite pretty_N_go_0; exact Hs|].
  rewrite pretty_N_go_step by lia.
  apply IH; [apply N.div_lt; lia|].
  simpl. constructor; [|exact Hs].
  apply pretty_N_char_digit. apply N.mod_lt. lia.
Qed.

Lemma pretty_N_go_nonempty (x : N) (s : string) :
  s <> EmptyString -> pretty_N_go x s <> EmptyString.
Proof.
  revert s. induction (N.lt_wf_0 x) as [x _ IH]; intros s Hs.
  destruct (N.eq_dec x 0%N) as [->|Hx]; [rewrite pretty_N_go_0; exact Hs|].
  rewrite pretty_N_go_step by lia.
  apply IH; [apply N.div_lt; lia|discriminate].
Qed.

Lemma pretty_N_digits (a : N) :
  Forall (fun c => (48 <= N_of_ascii c <= 57)%N) (list_ascii_of_string (pretty a)) /\
  pretty a <> EmptyString.
Proof.
  unfold pretty, pretty_N. destruct (decide (a = 0%N)) as [->|Ha].
  - split; [|discriminate]. simpl. constructor; [cbn; lia|constructor].
  - split; [apply pretty_N_go_digits; constructor|].
    rewrite pretty_N_go_step by lia. apply pretty_N_go_nonempty. discriminate.
Qed.

Lemma parseDigits_pretty_N_go (x : N) (s : string) :
  (0 < x)%N ->
  parseDigits 10 (pretty_N_go x s) None = parseDigits 10 s (Some (Z.of_N x)).
Proof.
  revert s. induction (N.lt_wf_0 x) as [x _ IH]; intros s Hx.
  rewrite pretty_N_go_step by exact Hx.
  pose proof (N.mod_lt x 10%N ltac:(lia)) as Hmod.
  destruct (pretty_N_char_digit _ Hmod) as [Hd _].
  destruct (N.eq_dec (x / 10)%N 0%N) as [Hq|Hq].
  - rewrite Hq, pretty_N_go_0. simpl. rewrite Hd. cbn [nullish].
    f_equal. f_equal.
    pose proof (N.div_mod x 10%N ltac:(lia)) as Hdm. rewrite Hq in Hdm.
    rewrite Hdm at 2. rewrite N2Z.inj_add, N2Z.inj_mul. lia.
  - assert (Hlt : (x / 10 < x)%N) by (apply N.div_lt; lia).
    assert (Hpos : (0 < x / 10)%N) by (apply N.neq_0_lt_0; exact Hq).
    rewrite (IH _ Hlt _ Hpos). simpl. rewrite Hd. cbn [nullish].
    f_equal. f_equal.
    pose proof (N.div_mod x 10%N ltac:(lia)) as Hdm.
    rewrite Hdm at 3. rewrite N2Z.inj_add, N2Z.inj_mul. lia.
Qed.

Lemma parseDigits_pretty_N (a : N) :
  parseDigits 10 (pretty a) None = Some (Z.of_N a).
Proof.
  unfold pretty, pretty_N. destruct (decide (a = 0%N)) as [->|Ha]; [reflexivity|].
  rewrite parseDigits_pretty_N_go by lia. reflexivity.
Qed.

Lemma digit_is_no_white_space (c : ascii) :
  (48 <= N_of_ascii c <= 57)%N -> isWhiteSpace c = false.
Proof.
  intros Hc. unfold isWhiteSpace.
  destruct (N.leb_spec 9 (N_of_ascii c)), (N.leb_spec (N_of_ascii c) 13),
    (N.eqb_spec (N_of_ascii c) 32), (N.eqb_spec (N_of_ascii c) 160);
    simpl; try reflexivity; lia.
Qed.

Lemma digit_is_not (c : ascii) (other : ascii) :
  (48 <= N_of_ascii c <= 57)%N ->
  (N_of_ascii other < 48 \/ 57 < N_of_ascii other)%N ->
  Ascii.eqb c other = false.
Proof.
  intros Hc Ho. destruct (Ascii.eqb_spec c other) as [->|Hne]; [lia|reflexivity].
Qed.

Lemma trimStart_digits (s : string) :
  Forall (fun c => (48 <= N_of_ascii c <= 57)%N) (list_ascii_of_string s) ->
  trimStart s = s.
Proof.
  destruct s as [|c s]; [reflexivity|]. simpl. intros H.
  inversion H as [|? ? Hc _]; subst. rewrite digit_is_no_white_space by exact Hc.
  reflexivity.
Qed.

Lemma trim_digits (s : string) :
  Forall (fun c => (48 <= N_of_ascii c <= 57)%N) (list_ascii_of_string s) ->
  trim s = s.
Proof.
  intros H. unfold trim. rewrite (trimStart_digits s H).
  rewrite trimStart_digits; [apply rev_rev|].
  rewrite chars_rev. apply Forall_rev. exact H.
Qed.

Lemma parseInt_of_digits (s : string) :
  Forall (fun c => (48 <= N_of_ascii c <= 57)%N) (list_ascii_of_string s) ->
  parseInt s = match parseDigits 10 s None with
               | Some v => roundToDouble v
               | None => NaN
               end.
Proof.
  intros H. rewrite parseInt_view. unfold parseIntView.
  rewrite (trimStart_digits s H).
  destruct s as [|c s]; [reflexivity|].
  simpl in H. inversion H as [|? ? Hc Hs]; subst.
  unfold signOf.
  rewrite (digit_is_not c "-" Hc) by (cbn; lia).
  rewrite (digit_is_not c "+" Hc) by (cbn; lia).
  unfold radixOf. destruct s as [|x s].
  - destruct (parseDigits 10 _ None); [rewrite Z.mul_1_l|]; reflexivity.
  - simpl in Hs. inversion Hs as [|? ? Hx _]; subst.
    rewrite (digit_is_not x "x" Hx) by (cbn; lia).
    rewrite (digit_is_not x "X" Hx) by (cbn; lia).
    rewrite andb_false_r.
    destruct (parseDigits 10 _ None); [rewrite Z.mul_1_l|]; reflexivity.
Qed.

Lemma digits_have_no_dash (s : string) :
  Forall (fun c => (48 <= N_of_ascii c <= 57)%N) (list_ascii_of_string s) ->
  ~ In "-"%char (list_ascii_of_string s).
Proof.
  intros H Hin. rewrite List.Forall_forall in H. specialize (H _ Hin). cbn in H. lia.
Qed.

(** X12.  A header [bytes=a-b] with both numbers written in decimal resolves
    to the doubles nearest to these two numbers, and so to exactly these
    numbers when they are below 2^53. *)
Theorem resolveRange_reads_decimal_bounds (a b : N) :
  let header := String.append "bytes="
                  (String.append (pretty a) (String "-" (pretty b))) in
  resolveRange (Some header)
  = {| start := Some (roundToDouble (Z.of_N a));
       end_ := Some (roundToDouble (Z.of_N b)) |} /\
  (Z.of_N a < 2 ^ 53 -> Z.of_N b < 2 ^ 53 ->
   resolveRange (Some header)
   = {| start := Some (Num (Z.of_N a)); end_ := Some (Num (Z.of_N b)) |}).
Proof.
  intros header.
  assert (Hrounded : resolveRange (Some header)
            = {| start := Some (roundToDouble (Z.of_N a));
                 end_ := Some (roundToDouble (Z.of_N b)) |}).
  { destruct (pretty_N_digits a) as [Ha Hane].
    destruct (pretty_N_digits b) as [Hb Hbne].
    unfold resolveRange, header.
    replace (truthy (Some (String.append "bytes="
               (String.append (pretty a) (String "-" (pretty b)))))) with true
      by reflexivity.
    cbn [negb nullish].
    assert (Hprefix : forall x, startsWith (String.append "bytes=" x) "bytes=" = true).
    { intros x. unfold startsWith. simpl. destruct x; reflexivity. }
    rewrite Hprefix.
    assert (Hremove : forall x, removePrefix (String.append "bytes=" x) "bytes=" = x).
    { intros x. unfold removePrefix. rewrite Hprefix. reflexivity. }
    rewrite Hremove.
    rewrite split_two by (apply digits_have_no_dash; assumption).
    rewrite (trim_digits _ Ha), (trim_digits _ Hb).
    assert (Hnonempty : forall s, s <> EmptyString ->
              truthy (Some s) && (0 <? String.length s)%nat = true).
    { intros s Hs. destruct s; [contradiction|reflexivity]. }
    rewrite (Hnonempty _ Hane), (Hnonempty _ Hbne).
    rewrite (parseInt_of_digits _ Ha), (parseInt_of_digits _ Hb).
    rewrite !parseDigits_pretty_N. reflexivity. }
  split; [exact Hrounded|].
  intros Hsmall_a Hsmall_b. rewrite Hrounded.
  rewrite !roundToDouble_exact by (rewrite Z.abs_eq; [assumption|apply N2Z.is_nonneg]).
  reflexivity.
Qed.
End DecimalBounds.

Lemma resolveRange_reads_decimal_bounds_witness :
  Http.resolveRange (Some "bytes=0-1024")
  = {| Http.start := Some (Js.Num 0); Http.end_ := Some (Js.Num 1024) |}.
Proof.
  refine (proj2 (resolveRange_reads_decimal_bounds 0%N 1024%N) _ _).
  - vm_compute. reflexivity.
  - vm_compute. reflexivity.
Defined.

Example decimal_of_1024 : pretty 1024%N = "1024".
Proof. reflexivity. Qed.

(** Beyond 2^53 a bound is read as the nearest double: 2^53 + 1 as 2^53. *)
Example resolveRange_rounds_large_bounds :
  Http.resolveRange (Some "bytes=0-9007199254740993")
  = {| Http.start := Some (Js.Num 0); Http.end_ := Some (Js.Num 9007199254740992) |}.
Proof. vm_compute. reflexivity. Qed.

(** ** Configuration: what [setupConfig] and [findConfig] keep *)

Section ConfigMore.
Import Js Config ConfigView.
Variable darwin : bool.
Variable freshPublicKey freshSecretKey : string.
Variable fromSecretKey : value -> completion string.
Variable uuid : string.

Abbreviation setup := (setupConfig darwin freshPublicKey freshSecretKey fromSecretKey uuid).
Abbreviation find := (findConfig darwin freshPublicKey freshSecretKey fromSecretKey uuid).
Abbreviation prepare := (prepared freshPublicKey freshSecretKey fromSecretKey uuid).
Abbreviation copyOf o := (assign (assign ∅ o) (defaultConfig darwin)).

Lemma setupConfig_view (config : ref) (h : Heap) :
  setup config h
  = match prepare (copyOf (deref h config)) with
    | Returned made => (Returned (length h), h ++ [made])
    | Threw e => (Threw e, h ++ [copyOf (deref h config)])
    end.
Proof.
  unfold setupConfig, prepared, alloc.
  set (o := assign (assign ∅ (deref h config)) (defaultConfig darwin)).
  cbv beta iota. rewrite !deref_alloc.
  destruct (truthyValue (o !! "privateKey"));
    destruct (negb (truthyValue (o !! "publicKey")));
    try destruct (fromSecretKey _) as [pk|e];
    cbv beta iota; rewrite ?setProperty_alloc, ?deref_alloc;
    try destruct (negb (truthyValue _));
    rewrite ?setProperty_alloc; reflexivity.
Qed.

Lemma defaultConfig_has_no_name : defaultConfig darwin !! "name" = None.
Proof. unfold defaultConfig. destruct darwin; reflexivity. Qed.

Lemma copyOf_lookup (o : object) (key : string) :
  copyOf o !! key = match defaultConfig darwin !! key with
                    | Some v => Some v
                    | None => o !! key
                    end.
Proof.
  rewrite !assign_lookup. destruct (defaultConfig darwin !! key); [reflexivity|].
  destruct (o !! key); [reflexivity|]. apply lookup_empty.
Qed.

(** The keys that [prepared] may write are [publicKey], [privateKey] and
    [name]; every other property of the copy stays. *)
Lemma prepared_other_keys (copy made : object) (key : string) :
  prepare copy = Returned made ->
  key <> "publicKey" -> key <> "privateKey" -> key <> "name" ->
  made !! key = copy !! key.
Proof.
  unfold prepared. intros Hmade Hpub Hpriv Hname.
  destruct (truthyValue (copy !! "privateKey"));
    destruct (negb (truthyValue (copy !! "publicKey")));
    try destruct (fromSecretKey _) as [pk|e]; try discriminate Hmade;
    cbv beta iota in Hmade;
    destruct (negb (truthyValue _)); injection Hmade as <-;
    rewrite ?lookup_insert_ne by congruence; reflexivity.
Qed.

(** X13.  [setupConfig] puts the defaults over what the caller supplied: every
    property that [defaultConfig] has ends up with the default value in the
    configuration returned, whatever value the caller gave it. *)
Theorem setupConfig_defaults_override_the_caller
    (config : ref) (h h' : Heap) (made : ref) (key : string) (v : value) :
  setup config h = (Returned made, h') ->
  defaultConfig darwin !! key = Some v ->
  deref h' made !! key = Some v.
Proof.
  intros Hrun Hdefault. rewrite setupConfig_view in Hrun.
  destruct (prepare (copyOf (deref h config))) as [o|e] eqn:Hprep; [|discriminate Hrun].
  injection Hrun as <- <-. rewrite deref_alloc.
  destruct (defaultConfig_has_no_keys darwin) as [Hdpub Hdpriv].
  pose proof defaultConfig_has_no_name as Hdname.
  rewrite (prepared_other_keys _ _ key Hprep) by congruence.
  rewrite copyOf_lookup, Hdefault. reflexivity.
Qed.

(** [setupConfig] leaves every object that existed before the call as it
    was, its argument included, and allocates exactly one object. *)
Theorem setupConfig_touches_no_existing_object (config : ref) (h : Heap) (r : ref) :
  (r < length h)%nat ->
  deref (snd (setup config h)) r = deref h r /\
  length (snd (setup config h)) = S (length h).
Proof.
  intros Hr. destruct (setupConfig_frame darwin freshPublicKey freshSecretKey
                         fromSecretKey uuid config h) as [copy Hframe].
  rewrite Hframe. split; [apply deref_older; exact Hr|].
  rewrite length_app. simpl. lia.
Qed.

(** X14.  A configuration that comes with both keys keeps them, and
    [fromSecretKey] is not asked.  One that comes with a private key and
    no public key has [fromSecretKey] asked for the public key, and when
    that throws (as it does on every key that is no Uint8Array),
    [setupConfig] throws the same error: the copy is left without a
    public key and no configuration is returned. *)
Theorem setupConfig_keeps_both_keys_or_asks_nacl
    (config : ref) (h : Heap) (priv : value) :
  deref h config !! "privateKey" = Some priv ->
  truthyValue (Some priv) = true ->
  (forall pub, deref h config !! "publicKey" = Some pub ->
     truthyValue (Some pub) = true ->
     exists h', setup config h = (Returned (length h), h') /\
       deref h' (length h) !! "publicKey" = Some pub /\
       deref h' (length h) !! "privateKey" = Some priv) /\
  (forall e, truthyValue (deref h config !! "publicKey") = false ->
     fromSecretKey priv = Threw e ->
     setup config h = (Threw e, h ++ [copyOf (deref h config)]) /\
     copyOf (deref h config) !! "publicKey" = deref h config !! "publicKey").
Proof.
  intros Hpriv Htpriv.
  destruct (defaultConfig_has_no_keys darwin) as [Hdpub Hdpriv].
  assert (Hcpriv : copyOf (deref h config) !! "privateKey" = Some priv)
    by (rewrite copyOf_lookup, Hdpriv; exact Hpriv).
  assert (Hcpub : copyOf (deref h config) !! "publicKey" = deref h config !! "publicKey")
    by (rewrite copyOf_lookup, Hdpub; reflexivity).
  split.
  - intros pub Hpub Htpub. rewrite setupConfig_view. unfold prepared.
    rewrite Hcpriv, Htpriv, Hcpub, Hpub, Htpub. cbn [negb].
    eexists. split; [reflexivity|]. rewrite deref_alloc.
    destruct (negb (truthyValue _));
      rewrite ?lookup_insert_ne by discriminate; rewrite ?Hcpub, ?Hcpriv; auto.
  - intros e Hfalsy Hthrow. split; [|exact Hcpub].
    rewrite setupConfig_view. unfold prepared.
    rewrite Hcpriv, Htpriv, Hcpub, Hfalsy. cbn [negb].
    change (default (Str EmptyString) (Some priv)) with priv. rewrite Hthrow.
    reflexivity.
Qed.

(** X15.  A configuration that comes with a public key and no private key keeps
    the public key and gets no private key: no pair is generated. *)
Theorem setupConfig_lone_public_key_gets_no_private_key
    (config : ref) (h : Heap) (pub : value) :
  deref h config !! "publicKey" = Some pub ->
  truthyValue (Some pub) = true ->
  truthyValue (deref h config !! "privateKey") = false ->
  exists h', setup config h = (Returned (length h), h') /\
    deref h' (length h) !! "publicKey" = Some pub /\
    deref h' (length h) !! "privateKey" = deref h config !! "privateKey".
Proof.
  intros Hpub Htpub Hfalsy.
  destruct (defaultConfig_has_no_keys darwin) as [Hdpub Hdpriv].
  assert (Hcpriv : copyOf (deref h config) !! "privateKey"
                   = deref h config !! "privateKey")
    by (rewrite copyOf_lookup, Hdpriv; reflexivity).
  assert (Hcpub : copyOf (deref h config) !! "publicKey" = Some pub)
    by (rewrite copyOf_lookup, Hdpub; exact Hpub).
  rewrite setupConfig_view. unfold prepared.
  rewrite Hcpriv, Hfalsy, Hcpub, Htpub. cbn [negb].
  eexists. split; [reflexivity|]. rewrite deref_alloc.
  destruct (negb (truthyValue _));
    rewrite ?lookup_insert_ne by discriminate; rewrite ?Hcpub, ?Hcpriv; auto.
Qed.

(** X16.  [findFsEntryInTree] returns the file of the nearest directory that has
    one, going up from [dir]; it returns nothing exactly when no directory
    from [dir] up to the root has the file. *)
Theorem findFsEntryInTree_finds_the_nearest
    (fs : gmap Path object) (dir : Path) (fileName : string) :
  match findFsEntryInTree fs dir fileName with
  | Some found =>
      exists up : nat,
        (up <= length dir)%nat /\
        found = join (drop up dir) fileName /\
        is_Some (fs !! found) /\
        forall nearer : nat, (nearer < up)%nat ->
          fs !! join (drop nearer dir) fileName = None
  | None =>
      forall up : nat, fs !! join (drop up dir) fileName = None
  end.
Proof.
  induction dir as [|d parent IH].
  - simpl. destruct (fs !! join [] fileName) as [o|] eqn:Hroot.
    + exists 0%nat. rewrite drop_0. split; [simpl; lia|]. split; [reflexivity|].
      split; [rewrite Hroot; eexists; reflexivity|]. intros nearer Hn. lia.
    + intros up. rewrite drop_nil. exact Hroot.
  - simpl. destruct (fs !! join (d :: parent) fileName) as [o|] eqn:Hhere.
    + exists 0%nat. rewrite drop_0. split; [simpl; lia|]. split; [reflexivity|].
      split; [rewrite Hhere; eexists; reflexivity|]. intros nearer Hn. lia.
    + destruct (findFsEntryInTree fs parent fileName) as [found|].
      * destruct IH as (up & Hup & Hfound & Hsome & Hnearer).
        exists (S up). split; [simpl; lia|]. split; [exact Hfound|].
        split; [exact Hsome|]. intros [|nearer] Hn; [exact Hhere|].
        simpl. apply Hnearer. lia.
      * intros [|up]; [exact Hhere|]. simpl. apply IH.
Qed.




End ConfigMore.

Lemma setupConfig_defaults_override_the_caller_witness :
  Config.deref
    (snd (Config.setupConfig false "PUB" "SEC" (fun _ => Js.Returned "DERIVED") "id"
            0%nat [{["port" := Config.Int 8080]}]))
    1%nat !! "port"
  = Some (Config.Int 80).
Proof.
  apply (setupConfig_defaults_override_the_caller
           false "PUB" "SEC" (fun _ => Js.Returned "DERIVED") "id"
           0%nat [{["port" := Config.Int 8080]}] _ 1%nat "port" (Config.Int 80)).
  - vm_compute. reflexivity.
  - vm_compute. reflexivity.
Defined.

Lemma setupConfig_touches_no_existing_object_witness :
  Config.deref
    (snd (Config.setupConfig false "PUB" "SEC" (fun _ => Js.Returned "DERIVED") "id"
            0%nat [{["port" := Config.Int 8080]}]))
    0%nat
  = Config.deref [{["port" := Config.Int 8080]}] 0%nat /\
  length
    (snd (Config.setupConfig false "PUB" "SEC" (fun _ => Js.Returned "DERIVED") "id"
            0%nat [{["port" := Config.Int 8080]}]))
  = 2%nat.
Proof.
  apply (setupConfig_touches_no_existing_object
           false "PUB" "SEC" (fun _ => Js.Returned "DERIVED") "id"
           0%nat [{["port" := Config.Int 8080]}] 0%nat).
  simpl. lia.
Defined.

Lemma setupConfig_keeps_both_keys_or_asks_nacl_witness :
  fst (Config.setupConfig false "PUB" "SEC" (fun _ => Js.Threw Js.TypeError) "id"
         0%nat [{["privateKey" := Config.Str "mine"]}])
  = Js.Threw Js.TypeError.
Proof.
  refine (f_equal fst (proj1 (proj2 (setupConfig_keeps_both_keys_or_asks_nacl
            false "PUB" "SEC" (fun _ => Js.Threw Js.TypeError) "id"
            0%nat [{["privateKey" := Config.Str "mine"]}] (Config.Str "mine") _ _)
            Js.TypeError _ _))).
  - vm_compute. reflexivity.
  - reflexivity.
  - vm_compute. reflexivity.
  - reflexivity.
Defined.

Lemma setupConfig_lone_public_key_gets_no_private_key_witness :
  exists h',
    Config.setupConfig false "PUB" "SEC" (fun _ => Js.Returned "DERIVED") "id"
      0%nat [{["publicKey" := Config.Str "theirs"]}]
    = (Js.Returned 1%nat, h') /\
    Config.deref h' 1%nat !! "publicKey" = Some (Config.Str "theirs") /\
    Config.deref h' 1%nat !! "privateKey"
    = Config.deref [{["publicKey" := Config.Str "theirs"]}] 0%nat !! "privateKey".
Proof.
  apply (setupConfig_lone_public_key_gets_no_private_key
           false "PUB" "SEC" (fun _ => Js.Returned "DERIVED") "id"
           0%nat [{["publicKey" := Config.Str "theirs"]}] (Config.Str "theirs")).
  - vm_compute. reflexivity.
  - reflexivity.
  - vm_compute. reflexivity.
Defined.



(** ** timer.ts *)

Section TimerFacts.
Import Js Timer.

(** X19.  [stop] after [start] under the same name, or both without a name,
    gives the time between the two calls; a start at time 0 counts as no
    start and gives 0. *)
Theorem timer_measures_since_the_matching_start
    (t : Timer) (name : option string) (began now : Z) :
  fst (stop (start t name began) name now)
  = Num (if began =? 0 then 0 else now - began).
Proof.
  unfold stop, start.
  destruct (truthy name) eqn:Hname; rewrite ?Hname; cbn [startTime name2StartTime fst].
  - unfold lookupName. cbn [name2StartTime]. rewrite String.eqb_refl.
    destruct began; reflexivity.
  - destruct began; reflexivity.
Qed.

(** X20.  The timer holds one name at a time: after a second named start, the
    first name gives no elapsed time, 0, or NaN when it is the name of a
    property that every object inherits. *)
Theorem timer_second_name_forgets_the_first
    (t : Timer) (first second : string) (a b now : Z) :
  first <> EmptyString ->
  second <> EmptyString ->
  first <> second ->
  fst (stop (start (start t (Some first) a) (Some second) b) (Some first) now)
  = if Obj.inherited first then NaN else Num 0.
Proof.
  intros Hfirst Hsecond Hne.
  assert (Ht1 : truthy (Some first) = true) by (destruct first; [contradiction|reflexivity]).
  assert (Ht2 : truthy (Some second) = true) by (destruct second; [contradiction|reflexivity]).
  unfold stop, start. rewrite Ht1, Ht2. cbn [fst nullish].
  unfold lookupName. cbn [name2StartTime].
  destruct (String.eqb_spec second first) as [Heq|_]; [congruence|].
  destruct (Obj.inherited first); reflexivity.
Qed.

(** Named and unnamed measurements do not disturb each other. *)
Theorem timer_named_and_unnamed_are_apart
    (t : Timer) (name : string) (began now : Z) :
  name <> EmptyString ->
  stop (start t (Some name) began) None now = stop t None now /\
  stop (start t None began) (Some name) now = stop t (Some name) now.
Proof.
  intros Hname.
  assert (Ht : truthy (Some name) = true) by (destruct name; [contradiction|reflexivity]).
  unfold stop, start. rewrite Ht. cbn [truthy startTime name2StartTime].
  split; reflexivity.
Qed.
End TimerFacts.

Lemma timer_second_name_forgets_the_first_witness :
  fst (Timer.stop
         (Timer.start (Timer.start Timer.fresh (Some "scan") 100) (Some "build") 200)
         (Some "scan") 350)
  = if Obj.inherited "scan" then Js.NaN else Js.Num 0.
Proof.
  apply (timer_second_name_forgets_the_first Timer.fresh "scan" "build" 100 200 350);
    discriminate.
Defined.

Lemma timer_named_and_unnamed_are_apart_witness :
  Timer.stop (Timer.start Timer.fresh (Some "scan") 100) None 350
  = Timer.stop Timer.fresh None 350 /\
  Timer.stop (Timer.start Timer.fresh None 100) (Some "scan") 350
  = Timer.stop Timer.fresh (Some "scan") 350.
Proof.
  apply (timer_named_and_unnamed_are_apart Timer.fresh "scan" 100 350). discriminate.
Defined.

(** ** StarChart.js *)

Section StarChartFacts.
Import Js StarChart.

(** What [load] would read back. *)
Lemma load_of_saved (c : StarChart) :
  item c = Some (JObject (path2Star c)) -> path2Star (load c) = path2Star c.
Proof. intros H. unfold load. cbn [path2Star]. rewrite H. reflexivity. Qed.

Lemma star_keeps_item_current (c : StarChart) (path : string) :
  path2Star (load c) = path2Star c -> path2Star (load (star c path)) = path2Star (star c path).
Proof.
  intros H. unfold star. destruct (lookupTruthy (path2Star c) path); [exact H|].
  reflexivity.
Qed.

Lemma unstar_keeps_item_current (c : StarChart) (path : string) :
  path2Star (load c) = path2Star c ->
  path2Star (load (unstar c path)) = path2Star (unstar c path).
Proof.
  intros H. unfold unstar. destruct (negb (lookupTruthy (path2Star c) path)); [exact H|].
  reflexivity.
Qed.

Lemma load_load (c : StarChart) : path2Star (load (load c)) = path2Star (load c).
Proof. reflexivity. Qed.

(** X21.  After [star] the path is starred.  After [unstar] it is not, unless
    it was starred and is the name of a property that every object
    inherits: [delete] removes the own property only. *)
Theorem star_and_unstar_on_their_path (c : StarChart) (path : string) :
  isStarred (star c path) path = true /\
  isStarred (unstar c path) path = isStarred c path && Obj.inherited path.
Proof.
  unfold isStarred, star, unstar. split.
  - destruct (lookupTruthy (path2Star c) path) eqn:Hl; [exact Hl|].
    unfold save, lookupTruthy. cbn [path2Star]. rewrite lookup_insert_eq. reflexivity.
  - destruct (lookupTruthy (path2Star c) path) eqn:Hl; cbn [negb andb].
    + unfold save, lookupTruthy. cbn [path2Star]. rewrite lookup_delete_eq. reflexivity.
    + exact Hl.
Qed.

(** [star] and [unstar] change nothing for any other path. *)
Theorem star_and_unstar_leave_other_paths (c : StarChart) (op : Op) (path other : string) :
  op = Star path \/ op = Unstar path ->
  other <> path ->
  isStarred (apply c op) other = isStarred c other.
Proof.
  intros [-> | ->] Hne; unfold apply, isStarred, star, unstar.
  - destruct (lookupTruthy (path2Star c) path); [reflexivity|].
    unfold save, lookupTruthy. cbn [path2Star].
    rewrite lookup_insert_ne by congruence. reflexivity.
  - destruct (negb (lookupTruthy (path2Star c) path)); [reflexivity|].
    unfold save, lookupTruthy. cbn [path2Star].
    rewrite lookup_delete_ne by congruence. reflexivity.
Qed.

(** X22.  Every change is saved: after [load] and any sequence of [star] and
    [unstar], a further [load] reads back the chart as it is. *)
Theorem star_chart_survives_reload (c : StarChart) (ops : list Op) :
  path2Star (load (fold_left apply ops (load c)))
  = path2Star (fold_left apply ops (load c)).
Proof.
  generalize (load_load c). generalize (load c) as current.
  induction ops as [|op ops IH]; intros current Hcurrent; [exact Hcurrent|].
  cbn [fold_left]. apply IH.
  destruct op; [apply star_keeps_item_current | apply unstar_keeps_item_current];
    exact Hcurrent.
Qed.
End StarChartFacts.

Lemma star_and_unstar_leave_other_paths_witness :
  StarChart.isStarred
    (StarChart.apply {| StarChart.path2Star := {["/a.mp4" := 1]}; StarChart.item := None |}
       (StarChart.Unstar "/a.mp4"))
    "/b.mp4"
  = StarChart.isStarred
      {| StarChart.path2Star := {["/a.mp4" := 1]}; StarChart.item := None |} "/b.mp4".
Proof.
  apply (star_and_unstar_leave_other_paths
           {| StarChart.path2Star := {["/a.mp4" := 1]}; StarChart.item := None |}
           (StarChart.Unstar "/a.mp4") "/a.mp4" "/b.mp4").
  - right. reflexivity.
  - discriminate.
Defined.

(** ** models/FileTree.js: [filter] *)

Section RenderTreeFacts.
Import RenderTree.
Context {Attrs : Type}.
Variable searchDelegate : Attrs -> bool.

Lemma Node_induction (P : Node Attrs -> Prop) :
  (forall attrs, P (node _ attrs None)) ->
  (forall attrs children, Forall P children -> P (node _ attrs (Some children))) ->
  forall tree, P tree.
Proof.
  intros Hfile Hdir. fix IH 1. intros [attrs [children|]].
  - apply Hdir. induction children as [|child children IHchildren].
    + apply List.Forall_nil.
    + apply List.Forall_cons; [apply IH | exact IHchildren].
  - apply Hfile.
Qed.

Lemma filterTree_files (tree : Node Attrs) :
  filesOf _ (filterTree _ searchDelegate tree)
  = List.filter searchDelegate (files _ tree).
Proof.
  induction tree as [attrs | attrs children IH] using Node_induction.
  - simpl. destruct (searchDelegate attrs); reflexivity.
  - cbn [filterTree files].
    assert (Hchildren :
      concat (List.map (files _) (nonNull (List.map (filterTree _ searchDelegate) children)))
      = List.filter searchDelegate (concat (List.map (files _) children))).
    { induction IH as [|child children Hchild _ IHchildren]; [reflexivity|].
      cbn [List.map concat]. rewrite List.filter_app, <- Hchild, <- IHchildren.
      destruct (filterTree _ searchDelegate child); reflexivity. }
    rewrite <- Hchildren.
    destruct (nonNull (List.map (filterTree _ searchDelegate) children)); reflexivity.
Qed.

Lemma filterTree_settled (tree kept : Node Attrs) :
  filterTree _ searchDelegate tree = Some kept ->
  populated _ kept = true /\ filterTree _ searchDelegate kept = Some kept.
Proof.
  revert kept.
  induction tree as [attrs | attrs children IH] using Node_induction; intros kept.
  - simpl. destruct (searchDelegate attrs) eqn:Hd; [|discriminate].
    intros H. injection H as <-. simpl. rewrite Hd. split; reflexivity.
  - cbn [filterTree].
    assert (Hchildren :
      forallb (populated _) (nonNull (List.map (filterTree _ searchDelegate) children)) = true /\
      nonNull (List.map (filterTree _ searchDelegate)
                 (nonNull (List.map (filterTree _ searchDelegate) children)))
      = nonNull (List.map (filterTree _ searchDelegate) children)).
    { induction IH as [|child children Hchild _ IHchildren]; [split; reflexivity|].
      cbn [List.map nonNull]. destruct IHchildren as [Hpop Hsame].
      destruct (filterTree _ searchDelegate child) as [kept'|] eqn:Hkept.
      - destruct (Hchild kept' eq_refl) as [Hp Hs].
        cbn [nonNull forallb List.map]. rewrite Hp, Hpop, Hs, Hsame. split; reflexivity.
      - split; assumption. }
    destruct Hchildren as [Hpop Hsame].
    destruct (nonNull (List.map (filterTree _ searchDelegate) children))
      as [|first others] eqn:Hkept; [discriminate|].
    intros H. injection H as <-. split.
    + cbn [populated]. exact Hpop.
    + cbn [filterTree]. rewrite Hsame. reflexivity.
Qed.

(** X23.  The files of the filtered tree are exactly the files of the tree that
    the search accepts, in the same order. *)
Theorem filter_keeps_exactly_the_accepted_files (renderTree : Node Attrs) :
  files _ (filter _ searchDelegate renderTree)
  = List.filter searchDelegate (files _ renderTree).
Proof.
  unfold filter. rewrite <- filterTree_files.
  destruct (filterTree _ searchDelegate renderTree); reflexivity.
Qed.

(** X24.  Filtering leaves no empty directory below the root, and filtering the
    result again with the same search changes nothing. *)
Theorem filter_prunes_and_is_idempotent (renderTree : Node Attrs) :
  match filter _ searchDelegate renderTree with
  | node _ _ (Some children) => forallb (populated _) children = true
  | node _ _ None => searchDelegate (attrsOf _ renderTree) = true
  end /\
  filter _ searchDelegate (filter _ searchDelegate renderTree)
  = filter _ searchDelegate renderTree.
Proof.
  unfold filter at 1 3 4.
  destruct (filterTree _ searchDelegate renderTree) as [kept|] eqn:Hkept.
  - destruct (filterTree_settled _ _ Hkept) as [Hpop Hsame]. split.
    + destruct kept as [attrs [children|]].
      * cbn [populated] in Hpop. destruct children; [discriminate|exact Hpop].
      * destruct renderTree as [attrs' [children'|]]; cbn [filterTree] in Hkept.
        -- destruct (nonNull _); discriminate.
        -- cbn [attrsOf]. destruct (searchDelegate attrs'); [reflexivity|discriminate].
    + unfold filter. rewrite Hsame. reflexivity.
  - split; reflexivity.
Qed.
End RenderTreeFacts.

(** ** plugin/auth.ts *)

Section AuthFacts.
Import Js Auth.
Context {User : Type}.
Variable verify : string -> completion (option string).
Variable getUser : string -> completion (option User).

(** The token the middleware reads: the cookie, else the body, else the
    header. *)
Abbreviation tokenOf req :=
  (orElse (cookieJwt req) (orElse (bodyJwt req) (getJwtFromAuthHeader req))).

(** X25.  The middleware calls [next] exactly when the request carries a token
    that is not empty, [jwt.verify] accepts it with a string account, and
    the storage has a user for that account; in every other case it
    answers 401. *)
Theorem authenticate_lets_through_exactly_known_users (req : Request) :
  (authenticate verify User getUser req = Next <->
   exists (token account : string) (user : User),
     tokenOf req = Ref token /\ token <> EmptyString /\
     verify token = Returned (Some account) /\
     getUser account = Returned (Some user)) /\
  (authenticate verify User getUser req <> Next ->
   exists message, authenticate verify User getUser req = Refused 401 message).
Proof.
  unfold authenticate. split; [split|].
  - destruct (tokenOf req) as [| |[|c token]]; try discriminate.
    destruct (verify (String c token)) as [[account|]|e] eqn:Hverify; try discriminate.
    destruct (getUser account) as [[user|]|e] eqn:Huser; try discriminate.
    intros _. exists (String c token), account, user.
    repeat split; try assumption. discriminate.
  - intros (token & account & user & -> & Hne & Hverify & Huser).
    destruct token as [|c token]; [contradiction|].
    rewrite Hverify, Huser. reflexivity.
  - destruct (tokenOf req) as [| |[|c token]]; try (intros _; eexists; reflexivity).
    destruct (verify (String c token)) as [[account|]|e];
      try (intros _; eexists; reflexivity).
    destruct (getUser account) as [[user|]|e]; try (intros _; eexists; reflexivity).
    intros H. contradiction.
Qed.

(** X26.  A cookie, when there is one, is the only token looked at: the body
    and the [Authorization] header are not consulted, so an empty cookie
    is answered [Token Missing] whatever they carry. *)
Theorem cookie_token_hides_the_others (req : Request) (cookie : string) :
  cookieJwt req = Ref cookie ->
  authenticate verify User getUser req
  = authenticate verify User getUser
      {| cookieJwt := Ref cookie; bodyJwt := Undefined; authorization := None |} /\
  (cookie = EmptyString ->
   authenticate verify User getUser req = Refused 401 "Token Missing").
Proof.
  intros Hcookie. unfold authenticate. rewrite Hcookie. cbn [orElse cookieJwt].
  split; [reflexivity|]. intros ->. reflexivity.
Qed.

(** X27.  From a header [Bearer <token>] the token is read; whatever follows a
    further space is dropped. *)
Theorem bearer_header_gives_its_token (token more : string) :
  ~ In " "%char (list_ascii_of_string token) ->
  getJwtFromAuthHeader
    {| cookieJwt := Undefined; bodyJwt := Undefined;
       authorization := Some (String.append "Bearer " token) |}
  = Ref token /\
  getJwtFromAuthHeader
    {| cookieJwt := Undefined; bodyJwt := Undefined;
       authorization :=
         Some (String.append "Bearer " (String.append token (String " " more))) |}
  = Ref token.
Proof.
  intros Hno.
  assert (Hbearer : ~ In " "%char (list_ascii_of_string "Bearer")).
  { simpl. intros H. repeat (destruct H as [H|H]; [discriminate H|]). exact H. }
  unfold getJwtFromAuthHeader. cbn [authorization].
  split.
  - change (String.append "Bearer " token)
      with (String.append "Bearer" (String " " token)).
    unfold split. rewrite split_go_at_sep by exact Hbearer.
    rewrite split_go_without_sep by exact Hno. reflexivity.
  - change (String.append "Bearer " (String.append token (String " " more)))
      with (String.append "Bearer" (String " " (String.append token (String " " more)))).
    unfold split. rewrite split_go_at_sep by exact Hbearer.
    rewrite split_go_at_sep by exact Hno. reflexivity.
Qed.
End AuthFacts.

Lemma cookie_token_hides_the_others_witness :
  Auth.authenticate (fun _ => Js.Returned (Some "ann")) unit (fun _ => Js.Returned (Some tt))
    {| Auth.cookieJwt := Js.Ref EmptyString; Auth.bodyJwt := Js.Ref "good";
       Auth.authorization := Some "Bearer good" |}
  = Auth.authenticate (fun _ => Js.Returned (Some "ann")) unit
      (fun _ => Js.Returned (Some tt))
      {| Auth.cookieJwt := Js.Ref EmptyString; Auth.bodyJwt := Js.Undefined;
         Auth.authorization := None |} /\
  (EmptyString = EmptyString ->
   Auth.authenticate (fun _ => Js.Returned (Some "ann")) unit
     (fun _ => Js.Returned (Some tt))
     {| Auth.cookieJwt := Js.Ref EmptyString; Auth.bodyJwt := Js.Ref "good";
        Auth.authorization := Some "Bearer good" |}
   = Auth.Refused 401 "Token Missing").
Proof.
  apply (cookie_token_hides_the_others
           (fun _ => Js.Returned (Some "ann")) (fun _ => Js.Returned (Some tt))
           {| Auth.cookieJwt := Js.Ref EmptyString; Auth.bodyJwt := Js.Ref "good";
              Auth.authorization := Some "Bearer good" |} EmptyString).
  reflexivity.
Defined.

Lemma bearer_header_gives_its_token_witness :
  Auth.getJwtFromAuthHeader
    {| Auth.cookieJwt := Js.Undefined; Auth.bodyJwt := Js.Undefined;
       Auth.authorization := Some (String.append "Bearer " "abc.def") |}
  = Js.Ref "abc.def" /\
  Auth.getJwtFromAuthHeader
    {| Auth.cookieJwt := Js.Undefined; Auth.bodyJwt := Js.Undefined;
       Auth.authorization :=
         Some (String.append "Bearer " (String.append "abc.def" (String " " "tail"))) |}
  = Js.Ref "abc.def".
Proof.
  apply (bearer_header_gives_its_token "abc.def" "tail").
  simpl. intros H. repeat (destruct H as [H|H]; [discriminate H|]). exact H.
Defined.

(** ** host.ts: the tree behind [toJSON] and [resolveFile] *)

Section HostTreeMore.
Import Js Host HostJson.
Context {LocalFileTree LocalFile FileTree : Type}.
Variable treeResolveFile :
  LocalFileTree -> list string -> completion (nullable LocalFile).
Variable treeToJSON : LocalFileTree -> completion FileTree.
Variable minimatch : string -> string -> bool.

Lemma fileTree_after_completion
    (h : HostTree LocalFileTree) (tree : LocalFileTree)
    (events : list (Event LocalFileTree)) :
  fileTree _ h = Some tree ->
  forallb (fun e => negb (isCompletion _ e)) events = true ->
  fileTree _ (fold_left (step _) events h) = Some tree.
Proof.
  revert h. induction events as [|e events IH]; intros h Htree Hall.
  - exact Htree.
  - simpl in Hall. apply andb_prop in Hall as [He Hrest].
    simpl. apply IH; [|exact Hrest].
    destruct e; simpl in *; try exact Htree. discriminate He.
Qed.

(** X28.  As long as no rebuild has completed since the constructor ran,
    [toJSON] throws a [TypeError]: unlike [resolveFile] it reads
    [fileTree] with no guard. *)
Theorem toJSON_before_first_rebuild_throws
    (options : HostTreeOptions) (events : list (Event LocalFileTree)) :
  forallb (fun e => negb (isCompletion _ e)) events = true ->
  toJSON _ _ treeToJSON (after _ minimatch options events) = Threw TypeError.
Proof.
  intros Hall. unfold toJSON, after.
  rewrite fileTree_unassigned_until_completion; [reflexivity|reflexivity|exact Hall].
Qed.

(** X29.  [toJSON] and [resolveFile] answer from the tree of the latest rebuild
    that has completed, whatever happened before it and whichever
    rebuilds have begun or failed since. *)
Theorem latest_completed_rebuild_is_served
    (options : HostTreeOptions) (earlier later : list (Event LocalFileTree))
    (tree : LocalFileTree) (pathParts : list string) :
  forallb (fun e => negb (isCompletion _ e)) later = true ->
  toJSON _ _ treeToJSON
    (after _ minimatch options (earlier ++ RebuildCompletes _ tree :: later))
  = treeToJSON tree /\
  resolveFile _ _ treeResolveFile
    (after _ minimatch options (earlier ++ RebuildCompletes _ tree :: later)) pathParts
  = treeResolveFile tree pathParts.
Proof.
  intros Hlater. unfold toJSON, resolveFile, after.
  rewrite fold_left_app. cbn [fold_left].
  rewrite (fileTree_after_completion _ tree later); [split; reflexivity|reflexivity|exact Hlater].
Qed.

(** X30.  A path is classified by the first pattern that matches it, in the
    order of the entries of [pattern2FileType]; later patterns that match
    as well do not count. *)
Theorem classifier_takes_the_first_match
    (options : HostTreeOptions) (earlier later : list (string * string))
    (pattern type path : string) :
  pattern2FileType options = earlier ++ (pattern, type) :: later ->
  forallb (fun entry => negb (minimatch path (fst entry))) earlier = true ->
  minimatch path pattern = true ->
  filePathClassifier _ (constructor LocalFileTree minimatch options) path = Some type.
Proof.
  intros Hpatterns Hearlier Hmatch. unfold constructor. cbn [filePathClassifier].
  unfold makeFilePathClassifier. rewrite Hpatterns. clear Hpatterns.
  induction earlier as [|[p t] earlier IH].
  - simpl. rewrite Hmatch. reflexivity.
  - simpl in Hearlier. apply andb_prop in Hearlier as [Hp Hrest].
    simpl. destruct (minimatch path p); [discriminate Hp|]. apply IH. exact Hrest.
Qed.
End HostTreeMore.

Lemma toJSON_before_first_rebuild_throws_witness :
  HostJson.toJSON nat nat (fun tree => Js.Returned tree)
    (Host.after nat (fun _ _ => false)
       {| Host.optRoot := "/srv"; Host.optName := "node";
          Host.pattern2FileType := []; Host.ignorePattern := [] |}
       [Host.Start nat; Host.RebuildBegins nat; Host.RebuildFails nat])
  = Js.Threw Js.TypeError.
Proof.
  apply (toJSON_before_first_rebuild_throws (fun tree : nat => Js.Returned tree)
           (fun _ _ => false)
           {| Host.optRoot := "/srv"; Host.optName := "node";
              Host.pattern2FileType := []; Host.ignorePattern := [] |}
           [Host.Start nat; Host.RebuildBegins nat; Host.RebuildFails nat]).
  reflexivity.
Defined.

Lemma latest_completed_rebuild_is_served_witness :
  HostJson.toJSON nat nat (fun tree => Js.Returned tree)
    (Host.after nat (fun _ _ => false)
       {| Host.optRoot := "/srv"; Host.optName := "node";
          Host.pattern2FileType := []; Host.ignorePattern := [] |}
       ([Host.RebuildCompletes nat 1%nat] ++
        Host.RebuildCompletes nat 2%nat :: [Host.RebuildBegins nat; Host.RebuildFails nat]))
  = Js.Returned 2%nat /\
  Host.resolveFile nat bool (fun tree _ => Js.Returned (Js.Ref (Nat.even tree)))
    (Host.after nat (fun _ _ => false)
       {| Host.optRoot := "/srv"; Host.optName := "node";
          Host.pattern2FileType := []; Host.ignorePattern := [] |}
       ([Host.RebuildCompletes nat 1%nat] ++
        Host.RebuildCompletes nat 2%nat :: [Host.RebuildBegins nat; Host.RebuildFails nat]))
    ["a"]
  = Js.Returned (Js.Ref (Nat.even 2)).
Proof.
  apply (latest_completed_rebuild_is_served
           (fun tree _ => Js.Returned (Js.Ref (Nat.even tree)))
           (fun tree : nat => Js.Returned tree) (fun _ _ => false)
           {| Host.optRoot := "/srv"; Host.optName := "node";
              Host.pattern2FileType := []; Host.ignorePattern := [] |}
           [Host.RebuildCompletes nat 1%nat]
           [Host.RebuildBegins nat; Host.RebuildFails nat] 2%nat ["a"]).
  reflexivity.
Defined.

Lemma classifier_takes_the_first_match_witness :
  Host.filePathClassifier nat
    (Host.constructor nat (fun path pattern => String.eqb pattern "any" || String.eqb path pattern)
       {| Host.optRoot := "/srv"; Host.optName := "node";
          Host.pattern2FileType := [("a.png", "image/png"); ("any", "video/mp4");
                                    ("a.mp4", "text/plain")];
          Host.ignorePattern := [] |})
    "a.mp4"
  = Some "video/mp4".
Proof.
  apply (classifier_takes_the_first_match
           (fun path pattern => String.eqb pattern "any" || String.eqb path pattern)
           {| Host.optRoot := "/srv"; Host.optName := "node";
              Host.pattern2FileType := [("a.png", "image/png"); ("any", "video/mp4");
                                        ("a.mp4", "text/plain")];
              Host.ignorePattern := [] |}
           [("a.png", "image/png")] [("a.mp4", "text/plain")] "any" "video/mp4" "a.mp4").
  - reflexivity.
  - reflexivity.
  - reflexivity.
Defined.
